(** * Chat session of the INDA / NING AIDA page component

    A shallow embedding of the [ChatInterface] React component in its three
    versions found in the repository (the Posts page with query-expansion
    display, the "FIXED SOURCES" production page and the "Enhanced
    Production" page), and the properties of its session state machine.

    React state hooks are modelled by an explicit [State] record and one
    pure function per setter; the asynchronous [handleSubmit] is split at its
    [await] into the synchronous part ([handleSubmit]) and the continuation
    that runs when the request settles ([settle]).  The controls of the
    page and their [disabled] attributes give the event function [step]. *)

From Stdlib Require Import NArith ZArith Ascii String Floats.PrimFloat.
From stdpp Require Import base list strings pretty.

Local Open Scope N_scope.

(** ** JavaScript values *)

Module JS.

(** An ECMAScript string is a sequence of UTF-16 code units. *)
Definition jsstring := list N.

(** A literal written with ASCII characters only. *)
Definition lit (s : string) : jsstring :=
  N_of_ascii <$> list_ascii_of_string s.

(** WhiteSpace and LineTerminator code points, the ones
    [String.prototype.trim] strips.  All of them are in the basic plane. *)
Definition is_white_space (c : N) : bool :=
  bool_decide (c ∈ [0x09; 0x0A; 0x0B; 0x0C; 0x0D; 0x20; 0xA0; 0x1680;
                    0x2028; 0x2029; 0x202F; 0x205F; 0x3000; 0xFEFF])
  || ((0x2000 <=? c) && (c <=? 0x200A)).

Fixpoint trimStart (s : jsstring) : jsstring :=
  match s with
  | c :: s' => if is_white_space c then trimStart s' else s
  | [] => []
  end.

Definition trimEnd (s : jsstring) : jsstring :=
  reverse (trimStart (reverse s)).

(** [s.trim()] *)
Definition trim (s : jsstring) : jsstring := trimEnd (trimStart s).

(** [String(n)] of a non-negative integer: its decimal digits. *)
Definition decimal (n : N) : jsstring := lit (pretty n).

(** The values [JSON.parse] produces.  An object is the list of its
    properties in insertion order; the parser leaves one entry per key. *)
#[warnings="-register-all"] Inductive JSON : Type :=
| JNull
| JBool (b : bool)
| JNum (x : float)
| JStr (s : jsstring)
| JArr (items : list JSON)
| JObj (fields : list (jsstring * JSON)).

(** A JavaScript value as the component handles them: [None] is
    [undefined], which is also what reading an absent property gives. *)
Definition value := option JSON.
Definition undefined : value := None.

(** ToBoolean *)
Definition truthy (v : value) : bool :=
  match v with
  | None | Some JNull => false
  | Some (JBool b) => b
  | Some (JNum x) => negb (is_zero x || is_nan x)
  | Some (JStr s) => negb (bool_decide (s = []))
  | Some (JArr _) | Some (JObj _) => true
  end.

(** [a || b] *)
Definition or (a b : value) : value := if truthy a then a else b.

(** What a [throw] carries to the [catch] clause: an [Error] instance with
    its [message], or any other value. *)
Inductive Thrown : Type :=
| ThrownError (message : jsstring)
| ThrownOther.

(** Completion of an expression that may throw, with its bind. *)
Inductive Completion (A : Type) : Type :=
| Normal (a : A)
| Throw (e : Thrown).
Arguments Normal {A} a.
Arguments Throw {A} e.

Definition bind {A B} (c : Completion A) (k : A -> Completion B)
  : Completion B :=
  match c with
  | Normal a => k a
  | Throw e => Throw e
  end.

Fixpoint assoc (k : jsstring) (fields : list (jsstring * JSON)) : value :=
  match fields with
  | [] => undefined
  | (k', v) :: fields' => if decide (k = k') then Some v else assoc k fields'
  end.

(** [o.k] for a value [o] that came from [JSON.parse] and a name [k] that
    no built-in prototype defines ([answer], [sources], [metadata],
    [model]).  Reading a property of [null] throws a TypeError whose text
    the engine chooses ([null_message]); primitives and arrays have no
    such property. *)
Definition get (null_message : jsstring -> jsstring)
    (o : JSON) (k : jsstring) : Completion value :=
  match o with
  | JNull => Throw (ThrownError (null_message k))
  | JObj fields => Normal (assoc k fields)
  | _ => Normal undefined
  end.

(** [o?.k] for the same names: [undefined] when [o] is [undefined] or
    [null], and never throws. *)
Definition get_opt (o : value) (k : jsstring) : value :=
  match o with
  | Some (JObj fields) => assoc k fields
  | _ => undefined
  end.

#[global] Instance Completion_bind : MBind Completion :=
  fun A B k c => bind c k.

End JS.

Import JS.

(** ** The data model of the component *)

(** The three versions of [ChatInterface] in the repository. *)
Inductive Version : Type :=
| PostsPage      (* app/Posts/page.tsx, "Enhanced with Query Expansion Display" *)
| FixedSources   (* "Production Version (FIXED SOURCES)" *)
| Enhanced.      (* "Enhanced Production Version" *)

(** [role: "user" | "assistant"] *)
Inductive Role : Type := User | Assistant.

(** [useState<"groq" | "gemini">] *)
Inductive Model : Type := Groq | Gemini.

Definition model_key (m : Model) : jsstring :=
  match m with
  | Groq => lit "groq"
  | Gemini => lit "gemini"
  end.

(** [interface ChatMessage].  The optional fields hold [undefined] when the
    object literal leaves them out.  [content], [sources] and [model] of an
    assistant message are whatever the response body holds, so they are
    JavaScript values and not only strings and arrays.  [timestamp] is the
    clock reading of [new Date()] in milliseconds. *)
Record ChatMessage : Type := mkChatMessage {
  role : Role;
  content : value;
  sources : value;
  timestamp : Z;
  model : value;
  metadata : value
}.

(** The five state hooks of the component. *)
Record State : Type := mkState {
  question : jsstring;
  messages : list ChatMessage;
  loading : bool;
  error : option jsstring;     (* [string | null] *)
  selectedModel : Model
}.

Definition initial : State :=
  {| question := []; messages := []; loading := false;
     error := None; selectedModel := Groq |}.

(** The setters of the hooks.  [setMessages] is always called with an
    updater function. *)
Definition setQuestion (q : jsstring) (s : State) : State :=
  {| question := q; messages := messages s; loading := loading s;
     error := error s; selectedModel := selectedModel s |}.

Definition setMessages (f : list ChatMessage -> list ChatMessage)
    (s : State) : State :=
  {| question := question s; messages := f (messages s);
     loading := loading s; error := error s;
     selectedModel := selectedModel s |}.

Definition setLoading (b : bool) (s : State) : State :=
  {| question := question s; messages := messages s; loading := b;
     error := error s; selectedModel := selectedModel s |}.

Definition setError (e : option jsstring) (s : State) : State :=
  {| question := question s; messages := messages s; loading := loading s;
     error := e; selectedModel := selectedModel s |}.

Definition setSelectedModel (m : Model) (s : State) : State :=
  {| question := question s; messages := messages s; loading := loading s;
     error := error s; selectedModel := m |}.

(** What the component takes from outside the source: the environment
    variable read at start-up and the text of the engine's TypeError for a
    property read on [null]. *)
Record Platform : Type := mkPlatform {
  NEXT_PUBLIC_API_URL : option jsstring;
  null_message : jsstring -> jsstring
}.

(** [process.env.NEXT_PUBLIC_API_URL || "https://...hf.space"] *)
Definition API_URL (P : Platform) : jsstring :=
  match NEXT_PUBLIC_API_URL P with
  | Some u => if bool_decide (u = []) then
                lit "https://jernihh-magangchatbot-ai.hf.space"
              else u
  | None => lit "https://jernihh-magangchatbot-ai.hf.space"
  end.

(** The argument of [fetch]; [body] is the object handed to
    [JSON.stringify]. *)
Record Request : Type := mkRequest {
  url : jsstring;
  method : jsstring;
  headers : list (jsstring * jsstring);
  body : JSON
}.

(** A request on its way, with the [selectedModel] its continuation closed
    over. *)
Record Pending : Type := mkPending {
  request : Request;
  closure_selectedModel : Model
}.

(** ** handleSubmit, up to the [await] *)

Definition userMessage (now : Z) (q : jsstring) : ChatMessage :=
  {| role := User; content := Some (JStr q); sources := undefined;
     timestamp := now; model := undefined; metadata := undefined |}.

Definition requestBody (v : Version) (q : jsstring) (m : Model) : JSON :=
  JObj ([(lit "question", JStr q);
         (lit "use_rag", JBool true);
         (lit "model", JStr (model_key m))]
        ++ match v with
           | Enhanced => [(lit "top_k", JNum 5%float)]
           | _ => []
           end).

Definition chatRequest (P : Platform) (v : Version) (q : jsstring)
    (m : Model) : Request :=
  {| url := API_URL P ++ lit "/api/chat";
     method := lit "POST";
     headers := [(lit "Content-Type", lit "application/json")];
     body := requestBody v q m |}.

(** The synchronous part of [handleSubmit]: the state after the four
    setters, and the request handed to [fetch] if there is one. *)
Definition handleSubmit (P : Platform) (v : Version) (now : Z) (s : State)
  : State * option Pending :=
  if negb (truthy (Some (JStr (trim (question s))))) then (s, None)
  else
    (setError None
       (setLoading true
          (setQuestion []
             (setMessages (fun prev => prev ++ [userMessage now (question s)])
                s))),
     Some {| request := chatRequest P v (question s) (selectedModel s);
             closure_selectedModel := selectedModel s |}).

(** ** handleSubmit, from the [await] on *)

(** How [res.json()] settles. *)
Inductive BodyResult : Type :=
| BodyJSON (data : JSON)
| BodyRejects (e : Thrown).

(** How [fetch] settles. *)
Inductive FetchOutcome : Type :=
| FetchRejects (e : Thrown)
| FetchResponds (status : N) (statusText : jsstring) (json : BodyResult).

(** [res.ok] *)
Definition ok (status : N) : bool := (200 <=? status) && (status <=? 299).

(** The message of the [Error] thrown for a response that is not ok. *)
Definition apiError (v : Version) (status : N) (statusText : jsstring)
  : jsstring :=
  match v with
  | Enhanced => lit "API Error: " ++ decimal status ++ lit " - " ++ statusText
  | _ => lit "API Error: " ++ decimal status
  end.

(** The body of the [try] block after [fetch] has settled: the assistant
    message it builds, or what it throws. *)
Definition tryBlock (P : Platform) (v : Version) (selected : Model)
    (now : Z) (o : FetchOutcome) : Completion ChatMessage :=
  match o with
  | FetchRejects e => Throw e
  | FetchResponds status statusText json =>
    if negb (ok status) then
      Throw (ThrownError (apiError v status statusText))
    else
      match json with
      | BodyRejects e => Throw e
      | BodyJSON data =>
        answer ← get (null_message P) data (lit "answer");
        srcs ← get (null_message P) data (lit "sources");
        meta ← get (null_message P) data (lit "metadata");
        Normal
          {| role := Assistant;
             content := answer;
             sources := JS.or srcs (Some (JArr []));
             timestamp := now;
             model := JS.or (get_opt meta (lit "model"))
                            (Some (JStr (model_key selected)));
             metadata := match v with
                         | PostsPage => meta
                         | _ => undefined
                         end |}
      end
  end.

(** [err instanceof Error ? err.message : "Terjadi kesalahan"] *)
Definition errorMessage (err : Thrown) : jsstring :=
  match err with
  | ThrownError message => message
  | ThrownOther => lit "Terjadi kesalahan"
  end.

(** The template literal of the error reply.  The enhanced version's
    literal starts with five non-ASCII code units, as the file has them. *)
Definition errorContent (v : Version) (errorMessage : jsstring) : jsstring :=
  match v with
  | Enhanced =>
      [0xE2; 0x161; 0xA0; 0xEF; 0xB8] ++ lit " Maaf, terjadi kesalahan: "
      ++ errorMessage ++ [0x0A; 0x0A]
      ++ lit "Silakan coba lagi atau hubungi administrator."
  | _ => lit "Maaf, terjadi kesalahan: " ++ errorMessage
  end.

Definition errorChatMessage (v : Version) (now : Z)
    (errorMessage : jsstring) : ChatMessage :=
  {| role := Assistant;
     content := Some (JStr (errorContent v errorMessage));
     sources := undefined; timestamp := now;
     model := undefined; metadata := undefined |}.

(** The [catch] clause. *)
Definition catchClause (v : Version) (now : Z) (err : Thrown) (s : State)
  : State :=
  setMessages (fun prev => prev ++ [errorChatMessage v now (errorMessage err)])
    (setError (Some (errorMessage err)) s).

(** The continuation of [handleSubmit] once [fetch] has settled with [o]:
    [try], [catch] and [finally].  [selected] is the model the closure
    holds, [now] the clock when the reply is built. *)
Definition settle (P : Platform) (v : Version) (selected : Model) (now : Z)
    (o : FetchOutcome) (s : State) : State :=
  setLoading false
    match tryBlock P v selected now o with
    | Normal assistantMessage =>
        setMessages (fun prev => prev ++ [assistantMessage]) s
    | Throw err => catchClause v now err s
    end.

(** ** The page: what it renders and what its controls do *)

(** [const quickQuestions = [...]], each version's list.  The enhanced
    version's strings start with non-ASCII code units, as the file has
    them. *)
Definition quickQuestions (v : Version) : list jsstring :=
  match v with
  | PostsPage =>
      [lit "Data inflasi 2 tahun terakhir";
       lit "Tingkat kemiskinan Sumut tahun ini";
       lit "Pertumbuhan ekonomi 3 tahun belakangan";
       lit "Pengangguran terbaru"]
  | FixedSources =>
      [lit "Data inflasi Sumatera Utara terbaru";
       lit "Tingkat kemiskinan di Sumut";
       lit "Pertumbuhan ekonomi Sumatera Utara";
       lit "Data pengangguran Sumut"]
  | Enhanced =>
      [[0x11f; 0x178; 0x201c; 0x160]
         ++ lit " Inflasi terendah di Jawa Timur bulan September 2025";
       [0x11f; 0x178; 0x201c; 0x2c6]
         ++ lit " Pertumbuhan ekonomi Sumatera Utara terbaru";
       [0x11f; 0x178; 0x2019; 0xb0]
         ++ lit " Data kemiskinan Sumut tahun 2025";
       [0x11f; 0x178; 0x2018; 0xa8; 0xe2; 0x20ac; 0x11f; 0x178; 0x2019; 0xbc]
         ++ lit " Tingkat pengangguran terbuka terkini";
       [0x11f; 0x178; 0x152; 0xbe]
         ++ lit " Produksi padi di Jawa Timur";
       [0x11f; 0x178; 0x201c; 0x2030]
         ++ lit " Deflasi yang terjadi di Jawa Timur"]
  end.

(** [{msg.model && (<span>...</span>)}]: whether a message shows the model
    badge. *)
Definition shows_model_badge (msg : ChatMessage) : bool := truthy (model msg).

(** [x.length > 0] for a truthy [x].  Arrays and strings have a length; a
    number or [true] has none, and [undefined > 0] is false.  An object
    answers with its own [length] property: a number is compared, an
    absent one is [undefined], and anything else would be coerced, which
    this model leaves out ([None]). *)
Definition length_positive (x : JSON) : option bool :=
  match x with
  | JArr items => Some (bool_decide (items <> []))
  | JStr s => Some (bool_decide (s <> []))
  | JObj fields =>
      match assoc (lit "length") fields with
      | None => Some false
      | Some (JNum n) => Some (PrimFloat.ltb 0%float n)
      | Some _ => None
      end
  | _ => Some false
  end.

(** [{msg.sources && msg.sources.length > 0 && (<div>...</div>)}]: whether
    a message shows the section of its sources. *)
Definition shows_sources (msg : ChatMessage) : option bool :=
  match sources msg with
  | Some x => if truthy (Some x) then length_positive x else Some false
  | None => Some false
  end.

(** [onClick={() => setError(null)}] of the button of the error banner *)
Definition dismissError (s : State) : State := setError None s.

(** The component at run time: its state, the requests that have not
    settled yet and the number of [setTimeout] callbacks still to fire. *)
Record World : Type := mkWorld {
  session : State;
  inflight : list Pending;
  timers : nat
}.

Definition start : World :=
  {| session := initial; inflight := []; timers := 0 |}.

Definition with_session (f : State -> State) (w : World) : World :=
  {| session := f (session w); inflight := inflight w; timers := timers w |}.

(** The form's [onSubmit]: [handleSubmit] runs and its request, if it makes
    one, is on its way. *)
Definition onSubmit (P : Platform) (v : Version) (now : Z) (w : World)
  : World :=
  {| session := (handleSubmit P v now (session w)).1;
     inflight := inflight w ++ option_list (handleSubmit P v now (session w)).2;
     timers := timers w |}.

(** [form.requestSubmit()]: the [required] input, unless it is disabled,
    must have a value; then the submit event is dispatched, whatever the
    state of the send button. *)
Definition requestSubmit (P : Platform) (v : Version) (now : Z) (w : World)
  : World :=
  if negb (loading (session w)) && bool_decide (question (session w) = [])
  then w
  else onSubmit P v now w.

(** Modelled from the spec: the quick-question buttons of the FIXED SOURCES
    page, which are past the end of its file (the component declares the
    list [quickQuestions] and no handler besides [handleSubmit]).  The spec
    has [quickFill] set "pending input to a preset suggestion string" and
    then trigger [submit]: the button sets the input, and the submit, which
    the spec has "rejected if already Awaiting", is the event [Send] that
    may follow it. *)
Definition spec_quickFill (q : jsstring) (w : World) : World :=
  {| session := setQuestion q (session w); inflight := inflight w;
     timers := timers w |}.

(** [onClick] of a quick-question button: [handleQuickQuestion(q)] in the
    enhanced version, which also sets the timer of the automatic submit;
    [setQuestion(q)] in the Posts page. *)
Definition quickFill (v : Version) (q : jsstring) (w : World) : World :=
  match v with
  | Enhanced =>
      {| session := setQuestion q (session w); inflight := inflight w;
         timers := S (timers w) |}
  | PostsPage => with_session (setQuestion q) w
  | FixedSources => spec_quickFill q w
  end.

(** What can happen to the page. *)
Inductive Event : Type :=
| Change (text : jsstring)        (* typing in the input: [onChange] *)
| Send (now : Z)                  (* the send button, or Enter in the input *)
| Timeout (now : Z)               (* a timer of [handleQuickQuestion] fires *)
| SelectModel (m : Model)         (* one of the two model buttons *)
| Quick (i : nat)                 (* the [i]-th quick-question button *)
| Dismiss                         (* the button of the error banner *)
| Settle (i : nat) (now : Z) (o : FetchOutcome).
                                  (* the [i]-th request on its way settles *)

(** Modelled from the spec: the input of the Posts page and of the FIXED
    SOURCES page; both files end before their form.  The spec puts no
    condition on typing, so none is assumed: the input always reacts. *)
Definition spec_input_disabled (s : State) : bool := false.

(** Modelled from the spec: the send button of the Posts page and of the
    FIXED SOURCES page; both files end before their form.  The spec has
    [submit] "rejected if already Awaiting or input empty", the loading
    flag being "checked before submit proceeds". *)
Definition spec_send_disabled (s : State) : bool :=
  loading s || negb (truthy (Some (JStr (trim (question s))))).

(** Modelled from the spec: the way to dismiss the error in the Posts page
    and in the FIXED SOURCES page.  The first file ends where its banner
    opens, under [{error && (], before any button; the second ends before
    its banner.  The spec has [dismissError] at any time, also "when error
    is already null", so nothing is assumed of when it is offered. *)
Definition spec_dismiss_offered (s : State) : bool := true.

(** Modelled from the spec: whether the quick-question buttons of the FIXED
    SOURCES page are disabled; they are past the end of its file.  The spec
    puts no condition on [quickFill] itself, so none is assumed. *)
Definition spec_quick_disabled (s : State) : bool := false.

(** [disabled={loading}] of the input *)
Definition input_disabled (v : Version) (s : State) : bool :=
  match v with
  | Enhanced => loading s
  | _ => spec_input_disabled s
  end.

(** [disabled={loading || !question.trim()}] of the send button *)
Definition send_disabled (v : Version) (s : State) : bool :=
  match v with
  | Enhanced => loading s || negb (truthy (Some (JStr (trim (question s)))))
  | _ => spec_send_disabled s
  end.

(** [{error && (... <button onClick={() => setError(null)}> ...)}] *)
Definition dismiss_offered (v : Version) (s : State) : bool :=
  match v with
  | Enhanced => truthy (JStr <$> error s)
  | _ => spec_dismiss_offered s
  end.

(** [disabled={loading}] of the quick-question buttons *)
Definition quick_disabled (v : Version) (s : State) : bool :=
  match v with
  | FixedSources => spec_quick_disabled s
  | _ => loading s
  end.

(** One event.  [None]: the control is disabled or not rendered, the timer
    or the request does not exist.  The model buttons have
    [disabled={loading}] in all three pages. *)
Definition step (P : Platform) (v : Version) (e : Event) (w : World)
  : option World :=
  match e with
  | Change text =>
      if input_disabled v (session w) then None
      else Some (with_session (setQuestion text) w)
  | Send now =>
      if send_disabled v (session w) then None
      else Some (onSubmit P v now w)
  | Timeout now =>
      match timers w with
      | O => None
      | S n => Some (requestSubmit P v now
                       {| session := session w; inflight := inflight w;
                          timers := n |})
      end
  | SelectModel m =>
      if loading (session w) then None
      else Some (with_session (setSelectedModel m) w)
  | Quick i =>
      if quick_disabled v (session w) then None
      else q ← quickQuestions v !! i; Some (quickFill v q w)
  | Dismiss =>
      if dismiss_offered v (session w)
      then Some (with_session dismissError w)
      else None
  | Settle i now o =>
      p ← inflight w !! i;
      Some {| session := settle P v (closure_selectedModel p) now o
                           (session w);
              inflight := delete i (inflight w);
              timers := timers w |}
  end.

(** A sequence of events, from left to right. *)
Fixpoint run (P : Platform) (v : Version) (es : list Event) (w : World)
  : option World :=
  match es with
  | [] => Some w
  | e :: es' => w' ← step P v e w; run P v es' w'
  end.

(** The worlds the page can be in. *)
Inductive reachable (P : Platform) (v : Version) : World -> Prop :=
| reachable_start : reachable P v start
| reachable_step w e w' :
    reachable P v w -> step P v e w = Some w' -> reachable P v w'.

(** ** Single flight, failures, and the specification's reading *)

(** While a request is on its way the input is empty, no error is shown,
    and exactly one request is pending, whose closure holds the selected
    model; otherwise none is. *)
Definition single_flight (w : World) : Prop :=
  if loading (session w) then
    question (session w) = [] /\ error (session w) = None
    /\ exists p, inflight w = [p]
                 /\ closure_selectedModel p = selectedModel (session w)
  else inflight w = [].

(** What holds of the requests in each of the three pages: while [loading]
    one request is on its way, with the selected model in its closure, and
    no error is set; otherwise none is.  In the enhanced page the input is
    empty meanwhile; the other two pages set no timer. *)
Definition one_flight (v : Version) (w : World) : Prop :=
  (if loading (session w) then
     error (session w) = None
     /\ exists p, inflight w = [p]
                  /\ closure_selectedModel p = selectedModel (session w)
   else inflight w = [])
  /\ match v with
     | Enhanced => loading (session w) = true -> question (session w) = []
     | _ => timers w = 0%nat
     end.

(** A failed request: [fetch] rejects (the network failed), or the
    response has a status outside 200..299. *)
Definition failed (o : FetchOutcome) : Prop :=
  match o with
  | FetchRejects _ => True
  | FetchResponds status _ _ => ok status = false
  end.

(** What reaches the [catch] clause then. *)
Definition failure (v : Version) (o : FetchOutcome) : Thrown :=
  match o with
  | FetchRejects e => e
  | FetchResponds status statusText _ =>
      ThrownError (apiError v status statusText)
  end.

(** The model of the reply as the specification words it: [metadata.model],
    and the selected model when that is absent. *)
Definition claimed_model (fields : list (jsstring * JSON)) (selected : Model)
  : value :=
  match get_opt (assoc (lit "metadata") fields) (lit "model") with
  | Some x => Some x
  | None => Some (JStr (model_key selected))
  end.

(** ** Concrete inputs for the examples *)

(** A browser without the environment variable, with V8's TypeError
    text. *)
Definition browser : Platform :=
  {| NEXT_PUBLIC_API_URL := None;
     null_message := fun k =>
       lit "Cannot read properties of null (reading '" ++ k ++ lit "')" |}.

(** The page after "x" was typed and sent at time 5. *)
Definition awaiting : World :=
  onSubmit browser Enhanced 5 (with_session (setQuestion (lit "x")) start).

(** The page after the request of [awaiting] failed at time 7. *)
Definition errored : World :=
  {| session :=
       settle browser Enhanced Groq 7
         (FetchRejects (ThrownError (lit "Failed to fetch")))
         (session awaiting);
     inflight := []; timers := 0 |}.


(** The page with "x" typed in, not sent yet. *)
Definition typed : World := with_session (setQuestion (lit "x")) start.

(** The page with the question of the scenario typed in. *)
Definition inflasi : World :=
  with_session (setQuestion (lit "Data inflasi Sumut")) start.

(** The body [{answer: "X", sources: [], metadata: {model: "gemini"}}]. *)
Definition answer_X : list (jsstring * JSON) :=
  [(lit "answer", JStr (lit "X")); (lit "sources", JArr []);
   (lit "metadata", JObj [(lit "model", JStr (lit "gemini"))])].

(** The body [{answer: "X", metadata: {model: ...}}] whose model is the
    empty string. *)
Definition answer_empty_model : list (jsstring * JSON) :=
  [(lit "answer", JStr (lit "X"));
   (lit "metadata", JObj [(lit "model", JStr [])])].

(** ** More of what a message shows *)

(** [a === b] for a value and a string literal, or for the values of two
    different properties of parsed JSON: two arrays or two objects are then
    two references, and never equal. *)
Definition strict_equal (a b : value) : bool :=
  match a, b with
  | None, None => true
  | Some JNull, Some JNull => true
  | Some (JBool x), Some (JBool y) => bool_decide (x = y)
  | Some (JNum x), Some (JNum y) => PrimFloat.eqb x y
  | Some (JStr x), Some (JStr y) => bool_decide (x = y)
  | _, _ => false
  end.

(** The two texts of the model badge: the one that ends in "Groq" and the
    one that ends in "Gemini". *)
Inductive Badge : Type := GroqBadge | GeminiBadge.

(** [{msg.model && (<span>{msg.model === "groq" ? ... : ...}</span>)}]:
    the badge under a message, if it has one. *)
Definition model_badge (msg : ChatMessage) : option Badge :=
  if shows_model_badge msg then
    Some (if strict_equal (model msg) (Some (JStr (lit "groq")))
          then GroqBadge else GeminiBadge)
  else None.

(** The badge that names a model of the selector. *)
Definition badge_of (m : Model) : Badge :=
  match m with
  | Groq => GroqBadge
  | Gemini => GeminiBadge
  end.

(** The Posts page's panel of the query expansion:
    [{msg.metadata?.expanded_query &&
      msg.metadata.expanded_query !== msg.metadata.original_query && ...}] *)
Definition shows_query_panel (msg : ChatMessage) : bool :=
  truthy (get_opt (metadata msg) (lit "expanded_query"))
  && negb (strict_equal (get_opt (metadata msg) (lit "expanded_query"))
                        (get_opt (metadata msg) (lit "original_query"))).

(** [{messages.length === 0 && (...)}]: whether the page shows its
    welcome screen. *)
Definition shows_welcome (s : State) : bool :=
  match messages s with
  | [] => true
  | _ :: _ => false
  end.

(** ** The shape of the transcript *)

(** Questions and replies take turns, a question first. *)
Definition alternating (ms : list ChatMessage) : Prop :=
  forall (i : nat) (m : ChatMessage),
    ms !! i = Some m -> role m = if Nat.even i then User else Assistant.

(** What holds of the page whatever happened to it. *)
Record coherent (P : Platform) (v : Version) (w : World) : Prop := {
  coherent_flight : single_flight w;
  coherent_turns : alternating (messages (session w));
  coherent_parity :
    Nat.even (length (messages (session w))) = negb (loading (session w));
  coherent_users :
    forall m, m ∈ messages (session w) -> role m = User ->
      exists t q, m = userMessage t q /\ trim q <> [];
  coherent_pending :
    loading (session w) = true ->
    exists t q,
      last (messages (session w)) = Some (userMessage t q)
      /\ inflight w =
           [{| request := chatRequest P v q (selectedModel (session w));
               closure_selectedModel := selectedModel (session w) |}];
  coherent_error :
    forall text, error (session w) = Some text ->
      exists t, last (messages (session w))
                = Some (errorChatMessage v t text)
}.

(** ** The clock *)

(** The clock reading an event takes, if it takes one. *)
Definition clock (e : Event) : option Z :=
  match e with
  | Send now | Timeout now | Settle _ now _ => Some now
  | _ => None
  end.

(** The readings of a sequence of events never go back, from [t] on. *)
Fixpoint ticking (t : Z) (es : list Event) : Prop :=
  match es with
  | [] => True
  | e :: es' =>
      match clock e with
      | Some t' => (t <= t')%Z /\ ticking t' es'
      | None => ticking t es'
      end
  end.

(** The time stamps of a transcript never go back. *)
Definition in_order (ms : list ChatMessage) : Prop :=
  forall (i j : nat) (a b : ChatMessage),
    (i <= j)%nat -> ms !! i = Some a -> ms !! j = Some b ->
    (timestamp a <= timestamp b)%Z.

(** The body [{answer: "X", metadata: {model: "llama-3.1-8b-instant"}}]. *)
Definition answer_llama : list (jsstring * JSON) :=
  [(lit "answer", JStr (lit "X"));
   (lit "metadata", JObj [(lit "model", JStr (lit "llama-3.1-8b-instant"))])].

(** A body whose metadata tells of a query that was expanded. *)
Definition answer_expanded : list (jsstring * JSON) :=
  [(lit "answer", JStr (lit "X"));
   (lit "metadata",
    JObj [(lit "original_query", JStr (lit "inflasi"));
          (lit "expanded_query", JStr (lit "inflasi 2024 2025"))])].

(** * Properties *)

(** ** Strings *)

Lemma trimStart_nil (s : jsstring) :
  trimStart s = [] <-> forallb is_white_space s = true.
Proof.
  induction s as [|c s IH]; simpl; [done|].
  destruct (is_white_space c); simpl; [exact IH|].
  split; discriminate.
Qed.

Lemma forallb_reverse (f : N -> bool) (s : jsstring) :
  forallb f (reverse s) = forallb f s.
Proof.
  induction s as [|c s IH]; [done|].
  rewrite reverse_cons, forallb_app, IH. simpl.
  rewrite andb_true_r. apply andb_comm.
Qed.

Lemma trimStart_white (s : jsstring) :
  forallb is_white_space (trimStart s) = true -> trimStart s = [].
Proof.
  induction s as [|c s IH]; simpl; [done|].
  destruct (is_white_space c) eqn:Hc; [exact IH|].
  simpl. rewrite Hc. discriminate.
Qed.

(** The test [!question.trim()] of [handleSubmit] holds exactly of the
    strings that are empty or made of white space only. *)
Lemma trim_nil (s : jsstring) :
  trim s = [] <-> forallb is_white_space s = true.
Proof.
  unfold trim, trimEnd. split.
  - intros H. apply (f_equal reverse) in H.
    rewrite reverse_involutive in H. change (reverse []) with (@nil N) in H.
    apply trimStart_nil in H. rewrite forallb_reverse in H.
    apply trimStart_white in H. apply trimStart_nil, H.
  - intros H. apply trimStart_nil in H. rewrite H. reflexivity.
Qed.

Lemma blank_test (s : jsstring) :
  negb (truthy (Some (JStr (trim s)))) = true
  <-> forallb is_white_space s = true.
Proof.
  rewrite <- trim_nil. simpl. rewrite negb_involutive.
  apply bool_decide_eq_true.
Qed.

Lemma blank_test_false (s : jsstring) :
  negb (truthy (Some (JStr (trim s)))) = false <-> trim s <> [].
Proof.
  simpl. rewrite negb_involutive. apply bool_decide_eq_false.
Qed.

(** [String(n)] is made of decimal digits and tells the numbers apart. *)
Lemma lit_inj (s1 s2 : string) : lit s1 = lit s2 -> s1 = s2.
Proof.
  revert s2. induction s1 as [|a s1 IH]; intros [|b s2]; try discriminate.
  - reflexivity.
  - unfold lit. simpl. intros [= Ha Hs].
    f_equal; [|by apply IH].
    rewrite <- (ascii_N_embedding a), <- (ascii_N_embedding b). by rewrite Ha.
Qed.

Lemma decimal_inj (n m : N) : decimal n = decimal m -> n = m.
Proof. intros H. apply lit_inj in H. by apply (inj pretty). Qed.

Lemma pretty_N_char_digit (x : N) :
  48 <= N_of_ascii (pretty_N_char x) <= 57.
Proof.
  unfold pretty_N_char. repeat case_match; vm_compute; split; discriminate.
Qed.

Lemma pretty_N_go_digits (x : N) (s : string) :
  Forall (fun c => 48 <= c <= 57) (lit s) ->
  Forall (fun c => 48 <= c <= 57) (lit (pretty_N_go x s)).
Proof.
  revert s. induction (N.lt_wf_0 x) as [x _ IH]; intros s Hs.
  destruct (decide (x = 0)) as [->|Hx]; [by rewrite pretty_N_go_0|].
  rewrite pretty_N_go_step by lia. apply IH.
  - apply N.div_lt; lia.
  - unfold lit. simpl. apply Forall_cons.
    split; [apply pretty_N_char_digit|exact Hs].
Qed.

Lemma decimal_digits (n : N) : Forall (fun c => 48 <= c <= 57) (decimal n).
Proof.
  unfold decimal, pretty, pretty_N. destruct (decide (n = 0)).
  - repeat constructor; vm_compute; discriminate.
  - apply pretty_N_go_digits. constructor.
Qed.

Lemma app_pivot {A} (x : A) (l1 l2 r1 r2 : list A) :
  x ∉ l1 -> x ∉ l2 -> l1 ++ x :: r1 = l2 ++ x :: r2 -> l1 = l2.
Proof.
  revert l2. induction l1 as [|a l1 IH]; intros [|b l2] H1 H2 E; simpl in E.
  - reflexivity.
  - injection E as -> _. exfalso. apply H2. left.
  - injection E as -> _. exfalso. apply H1. left.
  - injection E as -> E. f_equal. apply IH; [| |exact E].
    + intros ?. apply H1. by right.
    + intros ?. apply H2. by right.
Qed.

(** The text of the error for a status: "API Error: ", the status in
    decimal digits and, in the enhanced page, " - " and the status text. *)
Lemma apiError_text (v : Version) (status : N) (statusText : jsstring) :
  apiError v status statusText
  = lit "API Error: " ++ decimal status
    ++ match v with
       | Enhanced => lit " - " ++ statusText
       | _ => []
       end.
Proof. destruct v; unfold apiError; by rewrite ?app_nil_r. Qed.

(** Two statuses have the same text only if they are the same status. *)
Lemma apiError_status (v : Version) (s1 s2 : N) (t1 t2 : jsstring) :
  apiError v s1 t1 = apiError v s2 t2 -> s1 = s2.
Proof.
  assert (Hsp : forall n, 32 ∉ decimal n).
  { intros n Hin. pose proof (decimal_digits n) as Hd.
    rewrite Forall_forall in Hd. specialize (Hd 32 Hin). lia. }
  destruct v; unfold apiError; intros E; apply app_inv_head in E;
    try exact (decimal_inj _ _ E).
  apply decimal_inj.
  exact (app_pivot 32 _ _ _ _ (Hsp s1) (Hsp s2) E).
Qed.

(** ** The two branches of handleSubmit *)

Lemma handleSubmit_blank P v now (s : State) :
  forallb is_white_space (question s) = true ->
  handleSubmit P v now s = (s, None).
Proof.
  intros H. unfold handleSubmit.
  apply blank_test in H. rewrite H. reflexivity.
Qed.

Lemma handleSubmit_nonblank P v now (s : State) :
  trim (question s) <> [] ->
  handleSubmit P v now s =
    ({| question := [];
        messages := messages s ++ [userMessage now (question s)];
        loading := true; error := None;
        selectedModel := selectedModel s |},
     Some {| request := chatRequest P v (question s) (selectedModel s);
             closure_selectedModel := selectedModel s |}).
Proof.
  intros H. unfold handleSubmit.
  apply blank_test_false in H. rewrite H. reflexivity.
Qed.

(** [handleSubmit] never reads [loading]: the guard against a second
    request is not in the handler but in the controls, see
    [reachable_single_flight]. *)
Lemma handleSubmit_loading P v now (s : State) (b : bool) :
  (handleSubmit P v now (setLoading b s)).2 = (handleSubmit P v now s).2.
Proof.
  unfold handleSubmit. simpl.
  destruct (bool_decide (trim (question s) = [])); reflexivity.
Qed.

(** ** Single flight *)

Lemma onSubmit_awaiting P v now (w : World) :
  loading (session w) = true -> single_flight w -> onSubmit P v now w = w.
Proof.
  intros Hl Hw. unfold single_flight in Hw. rewrite Hl in Hw.
  destruct Hw as (Hq & _). unfold onSubmit.
  rewrite handleSubmit_blank by (rewrite Hq; reflexivity).
  destruct w; simpl. rewrite app_nil_r. reflexivity.
Qed.

Lemma onSubmit_single_flight P v now (w : World) :
  single_flight w -> single_flight (onSubmit P v now w).
Proof.
  intros Hw. destruct (loading (session w)) eqn:Hl.
  - rewrite onSubmit_awaiting; assumption.
  - unfold single_flight in *. rewrite Hl in Hw.
    unfold onSubmit, handleSubmit. rewrite Hw.
    destruct (negb (truthy (Some (JStr (trim (question (session w)))))));
      simpl; rewrite ?Hl; eauto 10.
Qed.

Lemma send_disabled_eq (v : Version) (s : State) :
  send_disabled v s
  = loading s || negb (truthy (Some (JStr (trim (question s))))).
Proof. by destruct v. Qed.

Lemma one_flight_enhanced (w : World) :
  one_flight Enhanced w <-> single_flight w.
Proof.
  unfold one_flight, single_flight.
  destruct (loading (session w)).
  - split.
    + intros [(He & Hp) Hq]. auto.
    + intros (Hq & He & Hp). auto.
  - split; [by intros [H _]|]. intros H. split; [exact H|discriminate].
Qed.

Lemma onSubmit_idle P v now (w : World) :
  loading (session w) = false ->
  one_flight v w -> one_flight v (onSubmit P v now w).
Proof.
  intros Hl [Hw Hv]. rewrite Hl in Hw.
  unfold one_flight, onSubmit, handleSubmit. rewrite Hw.
  destruct (negb (truthy (Some (JStr (trim (question (session w)))))));
    simpl; rewrite ?Hl.
  - split; [reflexivity|]. destruct v; first [exact Hv|discriminate].
  - split; [eauto|]. destruct v; auto.
Qed.

Lemma step_one_flight P v (e : Event) (w w' : World) :
  one_flight v w -> step P v e w = Some w' -> one_flight v w'.
Proof.
  intros Hw Hs. destruct e; unfold step in Hs.
  - destruct (input_disabled v (session w)) eqn:Hd; [discriminate|].
    injection Hs as <-. destruct Hw as [Hw Hv].
    split; [exact Hw|]. destruct v; try exact Hv.
    simpl in Hd. simpl. rewrite Hd. discriminate.
  - rewrite send_disabled_eq in Hs.
    destruct (loading (session w)) eqn:Hl; [discriminate|].
    destruct (negb _); [discriminate|]. injection Hs as <-.
    by apply onSubmit_idle.
  - destruct (timers w) as [|n] eqn:Ht; [discriminate|]. injection Hs as <-.
    destruct v; try (destruct Hw as [_ Hv]; congruence).
    apply one_flight_enhanced. apply one_flight_enhanced in Hw.
    unfold requestSubmit. cbn [session].
    destruct (_ && _); [exact Hw|].
    exact (onSubmit_single_flight P Enhanced now
             {| session := session w; inflight := inflight w; timers := n |}
             Hw).
  - destruct (loading (session w)) eqn:Hl; [discriminate|].
    injection Hs as <-. destruct Hw as [Hw Hv]. rewrite Hl in Hw.
    split; simpl; rewrite ?Hl; [exact Hw|]. destruct v; try exact Hv.
    discriminate.
  - destruct (quick_disabled v (session w)) eqn:Hd; [discriminate|].
    destruct (quickQuestions v !! i) as [q|]; [|discriminate].
    simpl in Hs. injection Hs as <-. destruct Hw as [Hw Hv].
    destruct v; (split; [exact Hw|]); try exact Hv.
    simpl in Hd. simpl. rewrite Hd. discriminate.
  - destruct (dismiss_offered v (session w)); [|discriminate].
    injection Hs as <-. destruct Hw as [Hw Hv].
    split; [|exact Hv]. simpl.
    destruct (loading (session w)); [|exact Hw].
    destruct Hw as (_ & Hp). auto.
  - destruct (inflight w !! i) as [p|] eqn:Hp; [|discriminate].
    simpl in Hs. injection Hs as <-. destruct Hw as [Hw Hv].
    split.
    + simpl. destruct (loading (session w)).
      * destruct Hw as (_ & p' & Hw & _). rewrite Hw in *.
        destruct i; [reflexivity|discriminate].
      * rewrite Hw in Hp. discriminate.
    + destruct v; try exact Hv. simpl. discriminate.
Qed.

Lemma reachable_one_flight P v (w : World) :
  reachable P v w -> one_flight v w.
Proof.
  induction 1 as [|w e w' _ IH Hs]; [by destruct v|].
  exact (step_one_flight P v e w w' IH Hs).
Qed.

Lemma reachable_idle P v (w : World) :
  reachable P v w -> loading (session w) = false -> inflight w = [].
Proof.
  intros Hr Hl. apply reachable_one_flight in Hr as [Hw _].
  by rewrite Hl in Hw.
Qed.

Lemma step_single_flight P (e : Event) (w w' : World) :
  single_flight w -> step P Enhanced e w = Some w' -> single_flight w'.
Proof.
  intros Hw Hs. apply one_flight_enhanced.
  apply one_flight_enhanced in Hw.
  exact (step_one_flight P Enhanced e w w' Hw Hs).
Qed.

Lemma reachable_single_flight P (w : World) :
  reachable P Enhanced w -> single_flight w.
Proof.
  intros Hr. apply one_flight_enhanced. exact (reachable_one_flight _ _ _ Hr).
Qed.

Lemma run_reachable P v (es : list Event) (w w' : World) :
  reachable P v w -> run P v es w = Some w' -> reachable P v w'.
Proof.
  revert w. induction es as [|e es IH]; simpl; intros w Hw Hr.
  - injection Hr as <-. exact Hw.
  - destruct (step P v e w) as [w1|] eqn:Hs; [|discriminate].
    simpl in Hr. eapply IH; [|exact Hr]. eapply reachable_step; eauto.
Qed.

Lemma awaiting_reachable : reachable browser Enhanced awaiting.
Proof.
  apply (run_reachable browser Enhanced [Change (lit "x"); Send 5] start).
  - apply reachable_start.
  - reflexivity.
Qed.

(** ** Submitting *)




Lemma send_enabled P v (w : World) (now : Z) :
  trim (question (session w)) <> [] ->
  loading (session w) = false ->
  exists s' : State,
    step P v (Send now) w
    = Some {| session := s';
              inflight :=
                inflight w
                ++ [{| request := chatRequest P v (question (session w))
                                    (selectedModel (session w));
                       closure_selectedModel := selectedModel (session w) |}];
              timers := timers w |}.
Proof.
  intros Hq Hl.
  pose proof (handleSubmit_nonblank P v now _ Hq) as Hh.
  apply blank_test_false in Hq. unfold step.
  rewrite send_disabled_eq, Hl, Hq. simpl.
  unfold onSubmit. rewrite Hh. eexists. reflexivity.
Qed.

(** C5. For every input that is not empty after trimming, the synchronous
    part of submit appends exactly one user message that carries the raw,
    untrimmed text, clears the pending input to the empty string, sets
    [loading] to true and [error] to null, and hands one request to
    [fetch]; with no request on its way the send button is enabled and does
    just that. *)
Theorem submit_appends_user_message P v (w : World) (now : Z) :
  trim (question (session w)) <> [] ->
  loading (session w) = false ->
  exists (s' : State) (p : Pending),
    handleSubmit P v now (session w) = (s', Some p)
    /\ messages s' =
         messages (session w)
         ++ [{| role := User; content := Some (JStr (question (session w)));
                sources := undefined; timestamp := now;
                model := undefined; metadata := undefined |}]
    /\ question s' = []
    /\ loading s' = true
    /\ error s' = None
    /\ selectedModel s' = selectedModel (session w)
    /\ step P v (Send now) w
       = Some {| session := s'; inflight := inflight w ++ [p];
                 timers := timers w |}.
Proof.
  intros Hq Hl.
  pose proof (handleSubmit_nonblank P v now _ Hq) as Hh.
  eexists _, _. split; [exact Hh|].
  repeat (split; [reflexivity|]).
  apply blank_test_false in Hq. unfold step.
  rewrite send_disabled_eq, Hl, Hq. simpl.
  unfold onSubmit. rewrite Hh. reflexivity.
Qed.

Lemma submit_appends_user_message_witness :
  trim (lit " Data inflasi ") <> []
  /\ exists (s' : State) (p : Pending),
       handleSubmit browser PostsPage 5
         (setQuestion (lit " Data inflasi ") initial) = (s', Some p)
       /\ messages s' = [userMessage 5 (lit " Data inflasi ")]
       /\ question s' = [] /\ loading s' = true /\ error s' = None.
Proof.
  assert (H : trim (lit " Data inflasi ") <> []) by (vm_compute; discriminate).
  split; [exact H|].
  destruct (submit_appends_user_message browser PostsPage
              (with_session (setQuestion (lit " Data inflasi ")) start) 5
              H eq_refl)
    as (s' & p & Hh & Hm & Hq & Hl & He & _).
  exists s', p. auto.
Defined.

(** ** When the request settles *)

Lemma settle_normal P v selected now o (s : State) (reply : ChatMessage) :
  tryBlock P v selected now o = Normal reply ->
  settle P v selected now o s =
    {| question := question s; messages := messages s ++ [reply];
       loading := false; error := error s;
       selectedModel := selectedModel s |}.
Proof. intros H. unfold settle. rewrite H. reflexivity. Qed.

Lemma settle_throw P v selected now o (s : State) (err : Thrown) :
  tryBlock P v selected now o = Throw err ->
  settle P v selected now o s =
    {| question := question s;
       messages := messages s ++ [errorChatMessage v now (errorMessage err)];
       loading := false; error := Some (errorMessage err);
       selectedModel := selectedModel s |}.
Proof. intros H. unfold settle. rewrite H. reflexivity. Qed.

Lemma tryBlock_failed P v selected now (o : FetchOutcome) :
  failed o -> tryBlock P v selected now o = Throw (failure v o).
Proof.
  destruct o as [e|status statusText json]; simpl; [done|].
  intros ->. reflexivity.
Qed.

Lemma errorContent_contains v (text : jsstring) :
  exists pre post, errorContent v text = pre ++ text ++ post.
Proof.
  destruct v; simpl.
  - exists (lit "Maaf, terjadi kesalahan: "), []. by rewrite app_nil_r.
  - exists (lit "Maaf, terjadi kesalahan: "), []. by rewrite app_nil_r.
  - exists ([0xE2; 0x161; 0xA0; 0xEF; 0xB8]
            ++ lit " Maaf, terjadi kesalahan: "),
           ([0x0A; 0x0A]
            ++ lit "Silakan coba lagi atau hubungi administrator.").
    by rewrite <- !app_assoc.
Qed.

(** A question sent from an idle page and the settling of its request. *)
Lemma send_then_settle P v (w : World) (t1 t2 : Z) (o : FetchOutcome) :
  reachable P v w ->
  loading (session w) = false ->
  trim (question (session w)) <> [] ->
  run P v [Send t1; Settle 0 t2 o] w =
    Some {| session :=
              settle P v (selectedModel (session w)) t2 o
                {| question := [];
                   messages := messages (session w)
                               ++ [userMessage t1 (question (session w))];
                   loading := true; error := None;
                   selectedModel := selectedModel (session w) |};
            inflight := []; timers := timers w |}.
Proof.
  intros Hr Hl Hq.
  pose proof (reachable_idle P v w Hr Hl) as Hi.
  pose proof (handleSubmit_nonblank P v t1 _ Hq) as Hh.
  apply blank_test_false in Hq.
  unfold run, step. rewrite send_disabled_eq, Hl, Hq. simpl.
  unfold onSubmit. rewrite Hh, Hi. reflexivity.
Qed.

(** C3. On a failed request (a status outside 2xx, or a network failure)
    submit sets [error] to a non-null message derived from the failure,
    appends exactly one assistant message whose content contains that
    text, and sets [loading] back to false: the session is idle again, with
    the user's question still in the transcript, right before the error
    reply.  For a response the text is "API Error: " followed by the
    status in decimal digits (and by " - " and the status text in the
    enhanced page), which no other status has; for a network failure it is
    the message of the error that [fetch] rejected with. *)
Theorem failed_request P v (w : World) (t1 t2 : Z) (o : FetchOutcome) :
  reachable P v w ->
  loading (session w) = false ->
  trim (question (session w)) <> [] ->
  failed o ->
  exists (text : jsstring) (reply : ChatMessage),
    run P v [Send t1; Settle 0 t2 o] w =
      Some {| session :=
                {| question := [];
                   messages := messages (session w)
                               ++ [userMessage t1 (question (session w));
                                   reply];
                   loading := false; error := Some text;
                   selectedModel := selectedModel (session w) |};
              inflight := []; timers := timers w |}
    /\ role reply = Assistant
    /\ (exists pre post, content reply = Some (JStr (pre ++ text ++ post)))
    /\ (forall status statusText json,
          o = FetchResponds status statusText json ->
          text = lit "API Error: " ++ decimal status
                 ++ match v with
                    | Enhanced => lit " - " ++ statusText
                    | _ => []
                    end
          /\ Forall (fun c => 48 <= c <= 57) (decimal status)
          /\ forall status' statusText',
               lit "API Error: " ++ decimal status'
               ++ match v with
                  | Enhanced => lit " - " ++ statusText'
                  | _ => []
                  end = text ->
               status' = status)
    /\ (forall message, o = FetchRejects (ThrownError message) ->
          text = message).
Proof.
  intros Hr Hl Hq Hf.
  exists (errorMessage (failure v o)),
         (errorChatMessage v t2 (errorMessage (failure v o))).
  split; [|split; [reflexivity|split]].
  - rewrite (send_then_settle P v w t1 t2 o Hr Hl Hq).
    rewrite (settle_throw P v _ t2 o _ _ (tryBlock_failed P v _ t2 o Hf)).
    simpl. by rewrite <- app_assoc.
  - destruct (errorContent_contains v (errorMessage (failure v o)))
      as (pre & post & E).
    exists pre, post. simpl. by rewrite E.
  - split; [|intros; subst o; reflexivity].
    intros status statusText json ->. cbn [failure errorMessage].
    split; [apply apiError_text|]. split; [apply decimal_digits|].
    intros status' statusText' E. rewrite <- apiError_text in E.
    exact (apiError_status v _ _ _ _ E).
Qed.

Lemma typed_reachable P v : reachable P v typed.
Proof.
  apply (reachable_step P v start (Change (lit "x"))); [|by destruct v].
  apply reachable_start.
Qed.

Lemma typed_nonblank : trim (question (session typed)) <> [].
Proof. vm_compute. discriminate. Qed.

Lemma failed_request_witness :
  failed (FetchResponds 500 (lit "Internal Server Error")
            (BodyJSON (JObj [])))
  /\ (exists (text : jsstring) (reply : ChatMessage),
        (session <$> run browser PostsPage
           [Send 5; Settle 0 7 (FetchResponds 500 (lit "Internal Server Error")
                                  (BodyJSON (JObj [])))] typed)
        = Some {| question := [];
                  messages := [userMessage 5 (lit "x"); reply];
                  loading := false; error := Some text;
                  selectedModel := Groq |}
        /\ text = lit "API Error: 500")
  /\ (exists (text : jsstring) (reply : ChatMessage),
        (session <$> run browser Enhanced
           [Send 5; Settle 0 7 (FetchResponds 404 (lit "Not Found")
                                  (BodyRejects ThrownOther))] typed)
        = Some {| question := [];
                  messages := [userMessage 5 (lit "x"); reply];
                  loading := false; error := Some text;
                  selectedModel := Groq |}
        /\ text = lit "API Error: 404 - Not Found").
Proof.
  split; [reflexivity|]. split.
  - destruct (failed_request browser PostsPage typed 5 7
                (FetchResponds 500 (lit "Internal Server Error")
                   (BodyJSON (JObj [])))
                (typed_reachable _ _) eq_refl typed_nonblank eq_refl)
      as (text & reply & Hrun & _ & _ & Hs & _).
    exists text, reply. split; [rewrite Hrun; reflexivity|].
    exact (proj1 (Hs _ _ _ eq_refl)).
  - destruct (failed_request browser Enhanced typed 5 7
                (FetchResponds 404 (lit "Not Found") (BodyRejects ThrownOther))
                (typed_reachable _ _) eq_refl typed_nonblank eq_refl)
      as (text & reply & Hrun & _ & _ & Hs & _).
    exists text, reply. split; [rewrite Hrun; reflexivity|].
    exact (proj1 (Hs _ _ _ eq_refl)).
Defined.

Lemma tryBlock_object P v selected now status statusText fields :
  ok status = true ->
  tryBlock P v selected now
    (FetchResponds status statusText (BodyJSON (JObj fields)))
  = Normal
      {| role := Assistant;
         content := assoc (lit "answer") fields;
         sources := JS.or (assoc (lit "sources") fields) (Some (JArr []));
         timestamp := now;
         model := JS.or (get_opt (assoc (lit "metadata") fields) (lit "model"))
                        (Some (JStr (model_key selected)));
         metadata := match v with
                     | PostsPage => assoc (lit "metadata") fields
                     | _ => undefined
                     end |}.
Proof. intros H. unfold tryBlock. rewrite H. reflexivity. Qed.

(** C2, as the code has it. On a successful response (a 2xx status and a
    JSON object with an [answer] field) submit appends exactly one assistant
    message after the user's, and [loading] returns to false.  The content
    of the message is [answer]; its source list is the response's [sources]
    list, and the empty list when [sources] is absent (or falsy); its model
    is [metadata.model] when that is truthy, and the selected model when it
    is absent or falsy, as the empty string is. *)
Theorem successful_response P v (w : World) (t1 t2 : Z)
    (status : N) (statusText : jsstring)
    (fields : list (jsstring * JSON)) (answer : JSON) :
  reachable P v w ->
  loading (session w) = false ->
  trim (question (session w)) <> [] ->
  ok status = true ->
  assoc (lit "answer") fields = Some answer ->
  exists reply : ChatMessage,
    run P v [Send t1;
             Settle 0 t2 (FetchResponds status statusText
                            (BodyJSON (JObj fields)))] w =
      Some {| session :=
                {| question := [];
                   messages := messages (session w)
                               ++ [userMessage t1 (question (session w));
                                   reply];
                   loading := false; error := None;
                   selectedModel := selectedModel (session w) |};
              inflight := []; timers := timers w |}
    /\ role reply = Assistant
    /\ content reply = Some answer
    /\ (forall items, assoc (lit "sources") fields = Some (JArr items) ->
          sources reply = Some (JArr items))
    /\ (truthy (assoc (lit "sources") fields) = false ->
          sources reply = Some (JArr []))
    /\ (truthy (get_opt (assoc (lit "metadata") fields) (lit "model")) = true ->
          model reply = get_opt (assoc (lit "metadata") fields) (lit "model")
          /\ model reply = claimed_model fields (selectedModel (session w)))
    /\ (truthy (get_opt (assoc (lit "metadata") fields) (lit "model")) = false ->
          model reply = Some (JStr (model_key (selectedModel (session w))))).
Proof.
  intros Hr Hl Hq Hok Ha.
  eexists. split.
  - rewrite (send_then_settle P v w t1 t2 _ Hr Hl Hq).
    rewrite (settle_normal P v _ t2 _ _ _
               (tryBlock_object P v _ t2 status statusText fields Hok)).
    simpl. rewrite <- app_assoc. reflexivity.
  - simpl. split; [reflexivity|]. split; [exact Ha|].
    unfold JS.or, claimed_model. repeat split.
    + intros items ->. reflexivity.
    + intros ->. reflexivity.
    + rewrite H. reflexivity.
    + rewrite H.
      destruct (get_opt (assoc (lit "metadata") fields) (lit "model"));
        [reflexivity|discriminate].
    + intros ->. reflexivity.
Qed.

Lemma successful_response_witness :
  ok 200 = true
  /\ assoc (lit "answer") answer_X = Some (JStr (lit "X"))
  /\ exists reply : ChatMessage,
       (session <$> run browser FixedSources
          [Send 5; Settle 0 7 (FetchResponds 200 (lit "OK")
                                 (BodyJSON (JObj answer_X)))] typed)
       = Some {| question := [];
                 messages := [userMessage 5 (lit "x"); reply];
                 loading := false; error := None; selectedModel := Groq |}
       /\ content reply = Some (JStr (lit "X"))
       /\ sources reply = Some (JArr [])
       /\ model reply = Some (JStr (lit "gemini")).
Proof.
  split; [reflexivity|]. split; [reflexivity|].
  destruct (successful_response browser FixedSources typed 5 7 200 (lit "OK")
              answer_X (JStr (lit "X"))
              (typed_reachable _ _) eq_refl typed_nonblank eq_refl eq_refl)
    as (reply & Hrun & _ & Hc & Hs & _ & Hm & _).
  exists reply. split; [rewrite Hrun; reflexivity|].
  split; [exact Hc|]. split; [exact (Hs [] eq_refl)|].
  exact (proj1 (Hm eq_refl)).
Defined.

(** C2 as stated fails: [metadata.model] is there and is the empty string,
    and the reply does not carry it but the selected model. *)
Lemma empty_model_not_kept :
  exists w' : World,
    run browser PostsPage
      [Send 5; Settle 0 7 (FetchResponds 200 (lit "OK")
                             (BodyJSON (JObj answer_empty_model)))] typed
    = Some w'
    /\ claimed_model answer_empty_model Groq = Some (JStr [])
    /\ (model <$> last (messages (session w')))
       = Some (Some (JStr (lit "groq")))
    /\ (model <$> last (messages (session w')))
       <> Some (claimed_model answer_empty_model Groq).
Proof.
  eexists. split; [reflexivity|]. split; [reflexivity|].
  split; [reflexivity|]. vm_compute. discriminate.
Qed.

(** [a || b] is defined when [b] is. *)
Lemma or_defined (a : value) (b : JSON) : JS.or a (Some b) <> undefined.
Proof.
  unfold JS.or. destruct a as [x|]; [|discriminate].
  destruct (truthy (Some x)); discriminate.
Qed.




(** ** The request *)

(** C6, as the code has it. Submitting the question "Data inflasi Sumut"
    with the model "groq" selected issues exactly one request, a POST to
    [API_URL]/api/chat with the JSON content type.  Its body is exactly
    [{question: "Data inflasi Sumut", use_rag: true, model: "groq"}] in the
    Posts page and in the FIXED SOURCES page; the enhanced page sends these
    three fields and a fourth, [top_k: 5]. *)
Theorem request_of_submit P v (w : World) (now : Z) :
  reachable P v w ->
  loading (session w) = false ->
  question (session w) = lit "Data inflasi Sumut" ->
  selectedModel (session w) = Groq ->
  exists (s' : State) (r : Request),
    step P v (Send now) w
    = Some {| session := s';
              inflight := [{| request := r; closure_selectedModel := Groq |}];
              timers := timers w |}
    /\ url r = API_URL P ++ lit "/api/chat"
    /\ method r = lit "POST"
    /\ headers r = [(lit "Content-Type", lit "application/json")]
    /\ (v <> Enhanced ->
        body r = JObj [(lit "question", JStr (lit "Data inflasi Sumut"));
                       (lit "use_rag", JBool true);
                       (lit "model", JStr (lit "groq"))])
    /\ (v = Enhanced ->
        body r = JObj [(lit "question", JStr (lit "Data inflasi Sumut"));
                       (lit "use_rag", JBool true);
                       (lit "model", JStr (lit "groq"));
                       (lit "top_k", JNum 5%float)]).
Proof.
  intros Hr Hl Hq Hm.
  assert (Hn : trim (question (session w)) <> [])
    by (rewrite Hq; vm_compute; discriminate).
  destruct (send_enabled P v w now Hn Hl) as [s' Hs].
  apply (reachable_idle P v w) in Hr; [|exact Hl].
  rewrite Hr, Hq, Hm in Hs.
  exists s', (chatRequest P v (lit "Data inflasi Sumut") Groq).
  split; [exact Hs|]. repeat (split; [reflexivity|]).
  split; [destruct v; [reflexivity|reflexivity|congruence]|].
  intros ->. reflexivity.
Qed.

Lemma inflasi_reachable P v : reachable P v inflasi.
Proof.
  apply (reachable_step P v start (Change (lit "Data inflasi Sumut")));
    [|by destruct v].
  apply reachable_start.
Qed.

Lemma request_of_submit_witness :
  exists r : Request,
    (map request <$> (inflight <$> step browser PostsPage (Send 5) inflasi))
    = Some [r]
    /\ url r = lit "https://jernihh-magangchatbot-ai.hf.space/api/chat"
    /\ body r = JObj [(lit "question", JStr (lit "Data inflasi Sumut"));
                      (lit "use_rag", JBool true);
                      (lit "model", JStr (lit "groq"))].
Proof.
  destruct (request_of_submit browser PostsPage inflasi 5
              (inflasi_reachable _ _) eq_refl eq_refl eq_refl)
    as (s' & r & Hs & Hu & _ & _ & Hb & _).
  exists r. split; [rewrite Hs; reflexivity|].
  split; [rewrite Hu; reflexivity|]. apply Hb. discriminate.
Defined.

(** C6 as stated fails in the enhanced page: the body of its request has a
    fourth field. *)
Lemma enhanced_body_has_top_k :
  (map (fun p => body (request p))
     <$> (inflight <$> step browser Enhanced (Send 5) inflasi))
  = Some [JObj [(lit "question", JStr (lit "Data inflasi Sumut"));
                (lit "use_rag", JBool true);
                (lit "model", JStr (lit "groq"));
                (lit "top_k", JNum 5%float)]]
  /\ (map (fun p => body (request p))
        <$> (inflight <$> step browser Enhanced (Send 5) inflasi))
     <> Some [JObj [(lit "question", JStr (lit "Data inflasi Sumut"));
                    (lit "use_rag", JBool true);
                    (lit "model", JStr (lit "groq"))]].
Proof. split; [reflexivity|]. vm_compute. discriminate. Qed.

(** ** The quick questions *)

Lemma quickQuestions_nonblank v :
  Forall (fun q => trim q <> []) (quickQuestions v).
Proof. destruct v; repeat constructor; vm_compute; discriminate. Qed.

Lemma trim_nonblank_nonempty (q : jsstring) : trim q <> [] -> q <> [].
Proof. intros H ->. apply H. reflexivity. Qed.

(** C7, as the code has it. In the enhanced page, for every preset
    question, the quick-question button sets the pending input to that
    string and sets a timer; when the timer fires, with nothing else
    having happened, the form is submitted, and the page is then in the
    very state that typing the text and sending it leads to.  In the Posts
    page the button sets the pending input and nothing more: no submit
    follows. *)
Theorem quickFill_then_submit P (w : World) (i : nat) (now : Z) :
  loading (session w) = false ->
  (forall q, quickQuestions Enhanced !! i = Some q ->
     step P Enhanced (Quick i) w
     = Some {| session := setQuestion q (session w); inflight := inflight w;
               timers := S (timers w) |}
     /\ run P Enhanced [Quick i; Timeout now] w
        = Some (onSubmit P Enhanced now (with_session (setQuestion q) w))
     /\ run P Enhanced [Quick i; Timeout now] w
        = run P Enhanced [Change q; Send now] w)
  /\ (forall q, quickQuestions PostsPage !! i = Some q ->
        step P PostsPage (Quick i) w
        = Some {| session := setQuestion q (session w);
                  inflight := inflight w; timers := timers w |}).
Proof.
  intros Hl. split.
  - intros q Hi.
    assert (Hq : trim q <> []).
    { pose proof (quickQuestions_nonblank Enhanced) as HF.
      rewrite Forall_lookup in HF. exact (HF i q Hi). }
    assert (Hs : step P Enhanced (Quick i) w
                 = Some {| session := setQuestion q (session w);
                           inflight := inflight w;
                           timers := S (timers w) |}).
    { unfold step, quick_disabled. rewrite Hl, Hi. reflexivity. }
    assert (Hrun : run P Enhanced [Quick i; Timeout now] w
                   = Some (onSubmit P Enhanced now
                             (with_session (setQuestion q) w))).
    { unfold run. rewrite Hs. simpl. unfold requestSubmit. simpl.
      rewrite Hl. simpl.
      rewrite (bool_decide_eq_false_2 _ (trim_nonblank_nonempty q Hq)).
      reflexivity. }
    split; [exact Hs|]. split; [exact Hrun|]. rewrite Hrun.
    unfold run, step, input_disabled, send_disabled.
    rewrite Hl. simpl. rewrite Hl. simpl.
    rewrite (bool_decide_eq_false_2 _ Hq). reflexivity.
  - intros q Hi. unfold step, quick_disabled. rewrite Hl, Hi. reflexivity.
Qed.

Lemma quickFill_then_submit_witness :
  loading (session start) = false
  /\ run browser Enhanced [Quick 1; Timeout 5] start
     = run browser Enhanced
         [Change ([0x11f; 0x178; 0x201c; 0x2c6]
                  ++ lit " Pertumbuhan ekonomi Sumatera Utara terbaru");
          Send 5] start.
Proof.
  split; [reflexivity|].
  destruct (quickFill_then_submit browser start 1 5 eq_refl) as (H & _).
  exact (proj2 (proj2 (H _ eq_refl))).
Defined.

(** C7 as stated fails in the Posts page: after the second quick-question
    button the text is in the input, nothing was sent and no timer is
    set, which is not the state after typing and sending the text. *)
Lemma posts_quick_button_only_fills :
  run browser PostsPage [Quick 1] start
  = Some {| session :=
              setQuestion (lit "Tingkat kemiskinan Sumut tahun ini") initial;
            inflight := []; timers := 0 |}
  /\ (forall now w', run browser PostsPage [Quick 1] start = Some w' ->
        step browser PostsPage (Timeout now) w' = None)
  /\ (session <$> run browser PostsPage [Quick 1] start)
     <> (session <$> run browser PostsPage
           [Change (lit "Tingkat kemiskinan Sumut tahun ini"); Send 5] start).
Proof.
  split; [reflexivity|]. split.
  - intros now w' H. injection H as <-. reflexivity.
  - vm_compute. discriminate.
Qed.

(** ** Dismissing the error *)

(** C8. [dismissError] sets [error] to null and changes nothing else: the
    transcript, the pending input, the loading flag and the selected model
    are the same in every state; and when [error] is null already the whole
    state is unchanged. *)
Theorem dismissError_frame (s : State) :
  error (dismissError s) = None
  /\ messages (dismissError s) = messages s
  /\ question (dismissError s) = question s
  /\ loading (dismissError s) = loading s
  /\ selectedModel (dismissError s) = selectedModel s
  /\ (error s = None -> dismissError s = s).
Proof.
  repeat (split; [reflexivity|]).
  destruct s; simpl. intros ->. reflexivity.
Qed.

Lemma dismissError_frame_witness :
  error initial = None /\ dismissError initial = initial.
Proof.
  split; [reflexivity|].
  apply (dismissError_frame initial). reflexivity.
Defined.

(** ** The transcript *)

Lemma handleSubmit_prefix P v now (s : State) :
  messages s `prefix_of` messages (handleSubmit P v now s).1.
Proof.
  unfold handleSubmit. destruct (negb _); simpl; [done|].
  by apply prefix_app_r.
Qed.

Lemma settle_appends P v selected now o (s : State) :
  exists reply, messages (settle P v selected now o s) = messages s ++ [reply].
Proof.
  unfold settle. destruct (tryBlock P v selected now o); simpl; eauto.
Qed.

Lemma step_prefix P v (e : Event) (w w' : World) :
  step P v e w = Some w' ->
  messages (session w) `prefix_of` messages (session w').
Proof.
  intros Hs. destruct e; unfold step in Hs.
  - destruct (input_disabled v _); [discriminate|]. by injection Hs as <-.
  - destruct (send_disabled v _); [discriminate|]. injection Hs as <-.
    apply handleSubmit_prefix.
  - destruct (timers w); [discriminate|]. injection Hs as <-.
    unfold requestSubmit. destruct (_ && _); simpl; [done|].
    apply handleSubmit_prefix.
  - destruct (loading (session w)); [discriminate|]. by injection Hs as <-.
  - destruct (quick_disabled v _); [discriminate|].
    destruct (quickQuestions v !! i); [|discriminate].
    simpl in Hs. injection Hs as <-. by destruct v.
  - destruct (dismiss_offered v _); [|discriminate]. by injection Hs as <-.
  - destruct (inflight w !! i) as [p|]; [|discriminate].
    simpl in Hs. injection Hs as <-. cbn [session].
    destruct (settle_appends P v (closure_selectedModel p) now o (session w))
      as [reply ->].
    by apply prefix_app_r.
Qed.

(** C9. The transcript is append-only.  Each operation leaves the list of
    messages as it is or appends to its end: [handleSubmit], the settling
    of its request, with success or with failure, the selection of a
    model, a quick question and [dismissError], in every state; hence after
    any sequence of events the old transcript is a prefix of the new one,
    with every message where it was and as it was. *)
Theorem transcript_append_only P v :
  (forall now s, messages s `prefix_of` messages (handleSubmit P v now s).1)
  /\ (forall selected now o s,
        messages s `prefix_of` messages (settle P v selected now o s))
  /\ (forall m s, messages (setSelectedModel m s) = messages s)
  /\ (forall q w, messages (session (quickFill v q w)) = messages (session w))
  /\ (forall s, messages (dismissError s) = messages s)
  /\ (forall es w w', run P v es w = Some w' ->
        messages (session w) `prefix_of` messages (session w')).
Proof.
  split; [intros; apply handleSubmit_prefix|].
  split.
  { intros selected now o s.
    destruct (settle_appends P v selected now o s) as [reply ->].
    by apply prefix_app_r. }
  split; [reflexivity|]. split; [by destruct v|]. split; [reflexivity|].
  induction es as [|e es IH]; simpl; intros w w' Hr.
  - by injection Hr as <-.
  - destruct (step P v e w) as [w1|] eqn:Hs; [|discriminate].
    simpl in Hr. etrans; [exact (step_prefix P v e w w1 Hs)|].
    exact (IH w1 w' Hr).
Qed.

Lemma transcript_append_only_witness :
  exists w' : World,
    run browser Enhanced
      [Settle 0 7 (FetchRejects (ThrownError (lit "Failed to fetch")));
       Dismiss; SelectModel Gemini; Quick 0; Timeout 9] awaiting = Some w'
    /\ length (messages (session w')) = 3%nat
    /\ messages (session awaiting) `prefix_of` messages (session w').
Proof.
  eexists. split; [reflexivity|]. split; [reflexivity|].
  apply (proj2 (proj2 (proj2 (proj2 (proj2
           (transcript_append_only browser Enhanced)))))
           [Settle 0 7 (FetchRejects (ThrownError (lit "Failed to fetch")));
            Dismiss; SelectModel Gemini; Quick 0; Timeout 9]).
  reflexivity.
Defined.

(** ** What a reply shows *)

Lemma or_truthy (a b : value) : truthy b = true -> truthy (JS.or a b) = true.
Proof. unfold JS.or. destruct (truthy a) eqn:E; auto. Qed.

Lemma tryBlock_reply P v selected now o (reply : ChatMessage) :
  tryBlock P v selected now o = Normal reply ->
  sources reply <> undefined
  /\ model reply <> undefined
  /\ shows_model_badge reply = true.
Proof.
  unfold tryBlock.
  destruct o as [e|status statusText [data|e]]; try discriminate;
    destruct (negb (ok status)); try discriminate.
  destruct data; try discriminate; simpl; intros [= <-]; simpl;
    (split; [apply or_defined|]; split; [apply or_defined|]);
    unfold shows_model_badge; simpl;
    first [apply or_truthy; by destruct selected | by destruct selected].
Qed.

(** C10. The assistant message appended when the request failed, or when
    anything else was thrown under the [try], has no source list and no
    model: both fields are absent, so it shows neither the section of the
    sources nor the model badge.  A reply built from a response has both
    fields, and always shows the badge. *)
Theorem error_reply_bare P v selected now (o : FetchOutcome) (s : State) :
  (forall err, tryBlock P v selected now o = Throw err ->
     exists reply : ChatMessage,
       messages (settle P v selected now o s) = messages s ++ [reply]
       /\ role reply = Assistant
       /\ sources reply = undefined
       /\ model reply = undefined
       /\ shows_sources reply = Some false
       /\ shows_model_badge reply = false)
  /\ (forall reply', tryBlock P v selected now o = Normal reply' ->
        messages (settle P v selected now o s) = messages s ++ [reply']
        /\ sources reply' <> undefined
        /\ model reply' <> undefined
        /\ shows_model_badge reply' = true).
Proof.
  split.
  - intros err H. exists (errorChatMessage v now (errorMessage err)).
    rewrite (settle_throw P v selected now o s err H). simpl. auto 10.
  - intros reply' H.
    rewrite (settle_normal P v selected now o s reply' H). simpl.
    split; [reflexivity|]. exact (tryBlock_reply P v selected now o reply' H).
Qed.

Lemma error_reply_bare_witness :
  tryBlock browser Enhanced Groq 7
    (FetchResponds 500 (lit "Internal Server Error") (BodyJSON (JObj [])))
  = Throw (ThrownError (lit "API Error: 500 - Internal Server Error"))
  /\ exists reply : ChatMessage,
       last (messages
               (settle browser Enhanced Groq 7
                  (FetchResponds 500 (lit "Internal Server Error")
                     (BodyJSON (JObj []))) (session awaiting)))
       = Some reply
       /\ sources reply = undefined /\ model reply = undefined
       /\ shows_sources reply = Some false
       /\ shows_model_badge reply = false.
Proof.
  split; [reflexivity|].
  destruct (proj1 (error_reply_bare browser Enhanced Groq 7
                     (FetchResponds 500 (lit "Internal Server Error")
                        (BodyJSON (JObj []))) (session awaiting))
              _ eq_refl)
    as (reply & Hm & _ & Hs & Hmo & Hss & Hb).
  exists reply. rewrite Hm, last_snoc. auto.
Defined.

(** * Further properties of the page *)

(** ** The two handlers, case by case *)

Lemma onSubmit_cases P v now (w : World) :
  single_flight w ->
  onSubmit P v now w = w
  \/ (loading (session w) = false
      /\ trim (question (session w)) <> []
      /\ inflight w = []
      /\ onSubmit P v now w =
           {| session :=
                {| question := [];
                   messages := messages (session w)
                               ++ [userMessage now (question (session w))];
                   loading := true; error := None;
                   selectedModel := selectedModel (session w) |};
              inflight :=
                [{| request := chatRequest P v (question (session w))
                                 (selectedModel (session w));
                    closure_selectedModel := selectedModel (session w) |}];
              timers := timers w |}).
Proof.
  intros Hw. destruct (loading (session w)) eqn:Hl.
  - left. apply onSubmit_awaiting; assumption.
  - destruct (decide (trim (question (session w)) = [])) as [Hq|Hq].
    + left. unfold onSubmit.
      rewrite handleSubmit_blank by (apply trim_nil, Hq).
      destruct w; simpl. by rewrite app_nil_r.
    + right. unfold single_flight in Hw. rewrite Hl in Hw.
      repeat (split; [done|]).
      unfold onSubmit. rewrite (handleSubmit_nonblank P v now _ Hq), Hw.
      reflexivity.
Qed.

Lemma tryBlock_assistant P v selected now o (reply : ChatMessage) :
  tryBlock P v selected now o = Normal reply ->
  role reply = Assistant /\ timestamp reply = now.
Proof.
  unfold tryBlock.
  destruct o as [e|status statusText [data|e]]; try discriminate;
    destruct (negb (ok status)); try discriminate.
  destruct data; try discriminate; simpl; intros [= <-]; done.
Qed.

Lemma settle_cases P v selected now o (s : State) :
  exists reply : ChatMessage,
    role reply = Assistant /\ timestamp reply = now
    /\ messages (settle P v selected now o s) = messages s ++ [reply]
    /\ loading (settle P v selected now o s) = false
    /\ question (settle P v selected now o s) = question s
    /\ selectedModel (settle P v selected now o s) = selectedModel s
    /\ (error (settle P v selected now o s) = error s
        \/ exists text,
             error (settle P v selected now o s) = Some text
             /\ reply = errorChatMessage v now text).
Proof.
  destruct (tryBlock P v selected now o) as [reply|err] eqn:Ht.
  - exists reply. rewrite (settle_normal P v selected now o s reply Ht).
    destruct (tryBlock_assistant P v selected now o reply Ht).
    simpl. auto 10.
  - exists (errorChatMessage v now (errorMessage err)).
    rewrite (settle_throw P v selected now o s err Ht). simpl.
    repeat (split; [reflexivity|]). right. eauto.
Qed.

(** ** What holds in every state *)

Lemma alternating_snoc (ms : list ChatMessage) (m : ChatMessage) :
  alternating ms ->
  role m = (if Nat.even (length ms) then User else Assistant) ->
  alternating (ms ++ [m]).
Proof.
  intros Hms Hm i a Hi.
  destruct (decide (i < length ms)%nat) as [Hlt|Hge].
  - rewrite lookup_app_l in Hi by assumption. exact (Hms i a Hi).
  - rewrite lookup_app_r in Hi by lia.
    destruct (i - length ms)%nat as [|k] eqn:E; [|destruct k; discriminate].
    injection Hi as <-. replace i with (length ms) by lia. exact Hm.
Qed.

Lemma even_length_snoc {A} (l : list A) (x : A) :
  Nat.even (length (l ++ [x])) = negb (Nat.even (length l)).
Proof.
  rewrite length_app, Nat.add_comm. cbn [length Nat.add].
  rewrite Nat.even_succ, <- Nat.negb_even. reflexivity.
Qed.

Lemma start_coherent P v : coherent P v start.
Proof.
  split; simpl; try done.
  intros m Hm. inversion Hm.
Qed.

Lemma onSubmit_coherent P v now (w : World) :
  coherent P v w -> coherent P v (onSubmit P v now w).
Proof.
  intros Hw.
  destruct (onSubmit_cases P v now w (coherent_flight _ _ _ Hw))
    as [->|(Hl & Hq & Hi & ->)]; [exact Hw|].
  destruct Hw as [Hf Ht Hp Hu _ _]. rewrite Hl in Hp. simpl in Hp.
  split; simpl.
  - unfold single_flight; simpl. eauto 10.
  - apply alternating_snoc; [exact Ht|]. by rewrite Hp.
  - rewrite even_length_snoc, Hp. reflexivity.
  - intros m Hm Hr. apply elem_of_app in Hm as [Hm|Hm]; [by apply Hu|].
    apply list_elem_of_singleton in Hm as ->. eauto.
  - intros _. rewrite last_snoc. eauto.
  - discriminate.
Qed.

Lemma step_coherent P (e : Event) (w w' : World) :
  coherent P Enhanced w -> step P Enhanced e w = Some w' ->
  coherent P Enhanced w'.
Proof.
  intros Hw Hs.
  pose proof (step_single_flight P e w w' (coherent_flight _ _ _ Hw) Hs)
    as Hf'.
  destruct e; unfold step in Hs;
    unfold input_disabled, send_disabled, quick_disabled, dismiss_offered
      in Hs.
  - destruct (loading (session w)) eqn:Hl; [discriminate|].
    injection Hs as <-. destruct Hw as [Hf Ht Hp Hu Hpe He].
    split; [exact Hf'|..]; simpl; done.
  - destruct (_ || _); [discriminate|]. injection Hs as <-.
    by apply onSubmit_coherent.
  - destruct (timers w) as [|n]; [discriminate|]. injection Hs as <-.
    assert (Hn : coherent P Enhanced
                   {| session := session w; inflight := inflight w;
                      timers := n |})
      by (destruct Hw; split; assumption).
    unfold requestSubmit. destruct (_ && _); [exact Hn|].
    by apply onSubmit_coherent.
  - destruct (loading (session w)) eqn:Hl; [discriminate|].
    injection Hs as <-. destruct Hw as [Hf Ht Hp Hu Hpe He].
    split; [exact Hf'|..]; simpl; try done. rewrite Hl. discriminate.
  - destruct (loading (session w)) eqn:Hl; [discriminate|].
    destruct (quickQuestions Enhanced !! i) as [q|]; [|discriminate].
    simpl in Hs. injection Hs as <-. destruct Hw as [Hf Ht Hp Hu Hpe He].
    split; [exact Hf'|..]; simpl; done.
  - destruct (truthy _); [|discriminate]. injection Hs as <-.
    destruct Hw as [Hf Ht Hp Hu Hpe He].
    split; [exact Hf'|..]; simpl; done.
  - destruct (inflight w !! i) as [p|] eqn:Hp; [|discriminate].
    simpl in Hs. injection Hs as <-.
    destruct Hw as [Hf Ht Hpar Hu Hpe He].
    assert (Hl : loading (session w) = true).
    { unfold single_flight in Hf. destruct (loading (session w)); [done|].
      rewrite Hf in Hp. discriminate. }
    unfold single_flight in Hf. rewrite Hl in Hf.
    destruct Hf as (_ & Herr & _). rewrite Hl in Hpar. simpl in Hpar.
    destruct (settle_cases P Enhanced (closure_selectedModel p) now o
                (session w))
      as (reply & Hr & _ & Hm & Hl' & _ & _ & Hcase).
    split; [exact Hf'|..]; cbn [session]; rewrite ?Hm, ?Hl'.
    + apply alternating_snoc; [exact Ht|]. by rewrite Hpar.
    + rewrite even_length_snoc, Hpar. reflexivity.
    + intros m Hin Hrole. apply elem_of_app in Hin as [Hin|Hin];
        [by apply Hu|].
      apply list_elem_of_singleton in Hin as ->. congruence.
    + discriminate.
    + intros text Htext. rewrite last_snoc.
      destruct Hcase as [Hsame|(text' & Ht' & ->)].
      * rewrite Hsame, Herr in Htext. discriminate.
      * rewrite Ht' in Htext. injection Htext as ->. eauto.
Qed.

Lemma reachable_coherent P (w : World) :
  reachable P Enhanced w -> coherent P Enhanced w.
Proof.
  induction 1 as [|w e w' _ IH Hs]; [apply start_coherent|].
  exact (step_coherent P e w w' IH Hs).
Qed.

(** What an event does to the transcript, whatever the controls allow: it
    leaves the transcript and the loading flag alone, or it appends one
    message, a reply or a question that is not blank. *)
Lemma step_effect P v (e : Event) (w w' : World) :
  step P v e w = Some w' ->
  (messages (session w') = messages (session w)
   /\ loading (session w') = loading (session w)
   /\ (error (session w') = error (session w)
       \/ error (session w') = None))
  \/ exists m,
       messages (session w') = messages (session w) ++ [m]
       /\ (role m = Assistant
           \/ exists t q, m = userMessage t q /\ trim q <> []).
Proof.
  intros Hs.
  assert (Hh : forall now w0,
    (messages (session (onSubmit P v now w0)) = messages (session w0)
     /\ loading (session (onSubmit P v now w0)) = loading (session w0)
     /\ (error (session (onSubmit P v now w0)) = error (session w0)
         \/ error (session (onSubmit P v now w0)) = None))
    \/ exists m,
         messages (session (onSubmit P v now w0))
         = messages (session w0) ++ [m]
         /\ (role m = Assistant
             \/ exists t q, m = userMessage t q /\ trim q <> [])).
  { intros now w0. unfold onSubmit. cbn [session].
    destruct (decide (trim (question (session w0)) = [])) as [Hq|Hq].
    - rewrite handleSubmit_blank by (apply trim_nil, Hq). left. auto.
    - rewrite (handleSubmit_nonblank P v now _ Hq). right.
      exists (userMessage now (question (session w0))). eauto 10. }
  destruct e; unfold step in Hs.
  - destruct (input_disabled v _); [discriminate|].
    injection Hs as <-. left. auto.
  - destruct (send_disabled v _); [discriminate|]. injection Hs as <-.
    apply Hh.
  - destruct (timers w) as [|n]; [discriminate|]. injection Hs as <-.
    unfold requestSubmit. destruct (_ && _); [left; auto|].
    apply (Hh now {| session := session w; inflight := inflight w;
                     timers := n |}).
  - destruct (loading (session w)) eqn:Hl; [discriminate|].
    injection Hs as <-. left. simpl. auto.
  - destruct (quick_disabled v _); [discriminate|].
    destruct (quickQuestions v !! i); [|discriminate].
    simpl in Hs. injection Hs as <-. left. destruct v; auto.
  - destruct (dismiss_offered v _); [|discriminate].
    injection Hs as <-. left. auto.
  - destruct (inflight w !! i) as [p|]; [|discriminate].
    simpl in Hs. injection Hs as <-. cbn [session]. right.
    destruct (settle_cases P v (closure_selectedModel p) now o (session w))
      as (reply & Hr & _ & Hm & _).
    exists reply. auto.
Qed.

Lemma reachable_users P v (w : World) (m : ChatMessage) :
  reachable P v w ->
  m ∈ messages (session w) ->
  role m = User ->
  exists t q, m = userMessage t q /\ trim q <> [].
Proof.
  intros Hr. revert m. induction Hr as [|w e w' _ IH Hs]; intros m Hm Hrole.
  - inversion Hm.
  - destruct (step_effect P v e w w' Hs) as [(E & _)|(a & E & Ha)];
      rewrite E in Hm; [by apply IH|].
    apply elem_of_app in Hm as [Hm|Hm]; [by apply IH|].
    apply list_elem_of_singleton in Hm as ->.
    destruct Ha as [Ha|Ha]; [congruence|exact Ha].
Qed.

Lemma reachable_fresh P v (w : World) :
  reachable P v w ->
  messages (session w) = [] ->
  loading (session w) = false /\ error (session w) = None.
Proof.
  induction 1 as [|w e w' _ IH Hs]; intros Hm; [done|].
  destruct (step_effect P v e w w' Hs) as [(E & El & Ee)|(a & E & _)].
  - rewrite E in Hm. destruct (IH Hm) as [Hl He]. rewrite El.
    split; [exact Hl|]. destruct Ee as [->| ->]; done.
  - rewrite E in Hm. by destruct (messages (session w)).
Qed.

(** ** Turns *)

(** X1. In every state the enhanced page can reach, questions and
    replies take turns in the transcript, a question first; the number of
    messages is even when the page is idle and odd while a request is on its
    way. *)
Theorem turns_and_parity P (w : World) :
  reachable P Enhanced w ->
  alternating (messages (session w))
  /\ Nat.even (length (messages (session w))) = negb (loading (session w)).
Proof.
  intros Hr. apply reachable_coherent in Hr.
  split; [exact (coherent_turns _ _ _ Hr)|exact (coherent_parity _ _ _ Hr)].
Qed.

Lemma turns_and_parity_witness :
  reachable browser Enhanced awaiting
  /\ Nat.even (length (messages (session awaiting))) = false
  /\ role (userMessage 5 (lit "x")) = User.
Proof.
  split; [exact awaiting_reachable|].
  destruct (turns_and_parity browser awaiting awaiting_reachable)
    as [Ht Hp].
  split; [exact Hp|].
  rewrite (Ht 0%nat (userMessage 5 (lit "x")) eq_refl). reflexivity.
Defined.

Lemma userMessage_shows_nothing (t : Z) (q : jsstring) :
  shows_sources (userMessage t q) = Some false
  /\ model_badge (userMessage t q) = None
  /\ shows_query_panel (userMessage t q) = false.
Proof. done. Qed.

(** X2. Every user message of a reachable transcript was built by
    [handleSubmit] from an input that is not blank: its content is that
    string, as typed, and it has no sources, no model and no metadata, so it
    shows no list of sources, no badge and no panel. *)
Theorem user_messages_nonblank P v (w : World) (m : ChatMessage) :
  reachable P v w ->
  m ∈ messages (session w) ->
  role m = User ->
  exists (t : Z) (q : jsstring),
    m = userMessage t q
    /\ content m = Some (JStr q)
    /\ trim q <> []
    /\ shows_sources m = Some false
    /\ model_badge m = None
    /\ shows_query_panel m = false.
Proof.
  intros Hr Hm Hrole.
  destruct (reachable_users P v w m Hr Hm Hrole) as (t & q & -> & Hq).
  exists t, q. destruct (userMessage_shows_nothing t q) as (? & ? & ?).
  auto 10.
Qed.

Lemma user_messages_nonblank_witness :
  reachable browser Enhanced awaiting
  /\ userMessage 5 (lit "x") ∈ messages (session awaiting)
  /\ exists (t : Z) (q : jsstring),
       userMessage 5 (lit "x") = userMessage t q /\ trim q <> [].
Proof.
  split; [exact awaiting_reachable|].
  assert (Hin : userMessage 5 (lit "x") ∈ messages (session awaiting))
    by (apply list_elem_of_here).
  split; [exact Hin|].
  destruct (user_messages_nonblank browser Enhanced awaiting _
              awaiting_reachable Hin eq_refl)
    as (t & q & E & _ & Hq & _).
  exists t, q. split; assumption.
Defined.

(** ** The request on its way *)

Lemma requestBody_fields (v : Version) (q : jsstring) (m : Model) :
  exists fields,
    requestBody v q m = JObj fields
    /\ assoc (lit "question") fields = Some (JStr q)
    /\ assoc (lit "use_rag") fields = Some (JBool true)
    /\ assoc (lit "model") fields = Some (JStr (model_key m))
    /\ assoc (lit "top_k") fields
       = match v with
         | Enhanced => Some (JNum 5%float)
         | _ => None
         end
    /\ NoDup fields.*1.
Proof.
  eexists. split; [reflexivity|].
  repeat (split; [by destruct v|]).
  destruct v; simpl; repeat (apply NoDup_cons; split; [|]);
    try apply NoDup_nil_2; rewrite ?elem_of_cons, ?elem_of_nil;
    vm_compute; intuition discriminate.
Qed.

(** X3. In the enhanced page, while a request is on its way, it is the
    only one, and it is the
    request for the last message of the transcript: the body's [question]
    is the content of that user message, as typed and not blank, its
    [model] is the key of the model selected now, [use_rag] is true, and
    [top_k] is 5.  No key occurs twice. *)
Theorem pending_is_last_question P (w : World) :
  reachable P Enhanced w ->
  loading (session w) = true ->
  exists (t : Z) (q : jsstring) (r : Request) (fields : list (jsstring * JSON)),
    last (messages (session w)) = Some (userMessage t q)
    /\ trim q <> []
    /\ inflight w = [{| request := r;
                        closure_selectedModel := selectedModel (session w) |}]
    /\ url r = API_URL P ++ lit "/api/chat"
    /\ body r = JObj fields
    /\ assoc (lit "question") fields = Some (JStr q)
    /\ assoc (lit "use_rag") fields = Some (JBool true)
    /\ assoc (lit "model") fields
       = Some (JStr (model_key (selectedModel (session w))))
    /\ assoc (lit "top_k") fields = Some (JNum 5%float)
    /\ NoDup fields.*1.
Proof.
  intros Hr Hl. apply reachable_coherent in Hr.
  destruct (coherent_pending _ _ _ Hr Hl) as (t & q & Hlast & Hin).
  destruct (requestBody_fields Enhanced q (selectedModel (session w)))
    as (fields & Hb & Hfields).
  exists t, q, (chatRequest P Enhanced q (selectedModel (session w))), fields.
  split; [exact Hlast|]. split.
  - apply last_Some in Hlast as [ms Hms].
    destruct (coherent_users _ _ _ Hr (userMessage t q)) as (t' & q' & E & Hq);
      [rewrite Hms; apply elem_of_app; right; apply list_elem_of_here
      |reflexivity|].
    assert (Some (JStr q) = Some (JStr q')) as [= ->]
      by exact (f_equal content E).
    exact Hq.
  - split; [exact Hin|]. split; [reflexivity|]. split; [exact Hb|].
    exact Hfields.
Qed.

Lemma pending_is_last_question_witness :
  reachable browser Enhanced awaiting
  /\ loading (session awaiting) = true
  /\ exists (r : Request) (fields : list (jsstring * JSON)),
       (request <$> inflight awaiting) = [r]
       /\ body r = JObj fields
       /\ assoc (lit "question") fields = Some (JStr (lit "x")).
Proof.
  split; [exact awaiting_reachable|]. split; [reflexivity|].
  destruct (pending_is_last_question browser awaiting
              awaiting_reachable eq_refl)
    as (t & q & r & fields & Hlast & _ & Hin & _ & Hb & Hq & _).
  exists r, fields. split; [rewrite Hin; reflexivity|]. split; [exact Hb|].
  cbv in Hlast. change (lit "x") with [120]. congruence.
Defined.

(** ** The error banner *)

(** X4. In the enhanced page, whenever [error] holds a text, the page is
    idle and the last message of the transcript is the error reply built
    from that very text: the banner and the inline reply say the same, and
    the banner is never shown together with the indicator of a request on
    its way. *)
Theorem error_echoes_last_reply P (w : World) (text : jsstring) :
  reachable P Enhanced w ->
  error (session w) = Some text ->
  loading (session w) = false
  /\ exists (t : Z) (pre post : jsstring),
       last (messages (session w)) = Some (errorChatMessage Enhanced t text)
       /\ content (errorChatMessage Enhanced t text)
          = Some (JStr (pre ++ text ++ post)).
Proof.
  intros Hr He. apply reachable_coherent in Hr. split.
  - pose proof (coherent_flight _ _ _ Hr) as Hf. unfold single_flight in Hf.
    destruct (loading (session w)); [|reflexivity].
    destruct Hf as (_ & Hn & _). congruence.
  - destruct (coherent_error _ _ _ Hr text He) as [t Hlast].
    destruct (errorContent_contains Enhanced text) as (pre & post & E).
    exists t, pre, post. split; [exact Hlast|].
    unfold errorChatMessage. cbn [content]. by rewrite E.
Qed.

Lemma errored_reachable : reachable browser Enhanced errored.
Proof.
  apply (run_reachable browser Enhanced
           [Settle 0 7 (FetchRejects (ThrownError (lit "Failed to fetch")))]
           awaiting); [exact awaiting_reachable|reflexivity].
Qed.

Lemma error_echoes_last_reply_witness :
  reachable browser Enhanced errored
  /\ error (session errored) = Some (lit "Failed to fetch")
  /\ loading (session errored) = false.
Proof.
  split; [exact errored_reachable|]. split; [reflexivity|].
  exact (proj1 (error_echoes_last_reply browser errored _
                  errored_reachable eq_refl)).
Defined.

(** ** Waiting and settling *)

(** X5. In the enhanced page, while a request is on its way nothing but
    its settling changes the session: every other control is disabled or
    not rendered, and a timer that fires leaves the state and the request
    as they are.  There is no way to cancel and nothing that times out. *)
Theorem awaiting_only_settles P (w w' : World) (e : Event) :
  reachable P Enhanced w ->
  loading (session w) = true ->
  step P Enhanced e w = Some w' ->
  (exists i now o, e = Settle i now o)
  \/ (exists now, e = Timeout now)
     /\ session w' = session w /\ inflight w' = inflight w.
Proof.
  intros Hr Hl Hs. apply reachable_single_flight in Hr.
  pose proof Hr as Hf. unfold single_flight in Hf. rewrite Hl in Hf.
  destruct Hf as (Hq & He & _).
  destruct e; unfold step in Hs;
    unfold input_disabled, send_disabled, quick_disabled, dismiss_offered
      in Hs;
    rewrite ?Hl, ?He in Hs;
    try discriminate; [right|left; eauto].
  destruct (timers w) as [|n]; [discriminate|]. injection Hs as <-.
  split; [eauto|]. unfold requestSubmit. cbn [session]. rewrite Hl.
  cbn [negb andb].
  rewrite (onSubmit_awaiting P Enhanced now
             {| session := session w; inflight := inflight w; timers := n |}
             Hl Hr).
  done.
Qed.

Lemma awaiting_only_settles_witness :
  (exists w' : World,
     step browser Enhanced (Settle 0 7 (FetchRejects ThrownOther)) awaiting
     = Some w')
  /\ step browser Enhanced (Change (lit "y")) awaiting = None.
Proof.
  split; [eexists; reflexivity|].
  destruct (step browser Enhanced (Change (lit "y")) awaiting) as [w'|] eqn:Hs;
    [|reflexivity].
  destruct (awaiting_only_settles browser awaiting w' _
              awaiting_reachable eq_refl Hs)
    as [(i & now & o & E)|[(now & E) _]]; discriminate.
Defined.

(** X6. However a request settles (a reply, an error status, a body that
    does not parse, a network failure), the continuation of [handleSubmit]
    appends exactly one assistant message, with the clock of the settling,
    sets [loading] to false and leaves the input and the selected model
    untouched, in all three pages.  In the enhanced page a request on its
    way is the one at index 0 and the only one, and none is left once it
    has settled. *)
Theorem every_outcome_settles P (now : Z) (o : FetchOutcome) :
  (forall v selected (s : State),
     exists reply : ChatMessage,
       messages (settle P v selected now o s) = messages s ++ [reply]
       /\ role reply = Assistant
       /\ timestamp reply = now
       /\ loading (settle P v selected now o s) = false
       /\ question (settle P v selected now o s) = question s
       /\ selectedModel (settle P v selected now o s) = selectedModel s)
  /\ (forall w : World,
        reachable P Enhanced w ->
        loading (session w) = true ->
        exists w' : World,
          step P Enhanced (Settle 0 now o) w = Some w'
          /\ loading (session w') = false
          /\ inflight w' = []
          /\ forall i, step P Enhanced (Settle (S i) now o) w = None).
Proof.
  split.
  - intros v selected s.
    destruct (settle_cases P v selected now o s)
      as (reply & Hrole & Ht & Hm & Hl & Hq & Hsel & _).
    exists reply. auto 10.
  - intros w Hr Hl. apply reachable_single_flight in Hr.
    unfold single_flight in Hr. rewrite Hl in Hr.
    destruct Hr as (_ & _ & p & Hin & _).
    eexists. unfold step. rewrite Hin.
    cbn [lookup list_lookup mbind option_bind].
    split; [reflexivity|]. cbn [session inflight].
    split; [reflexivity|]. split; [reflexivity|]. intros i. reflexivity.
Qed.

Lemma every_outcome_settles_witness :
  reachable browser Enhanced awaiting
  /\ loading (session awaiting) = true
  /\ exists (w' : World),
       step browser Enhanced
         (Settle 0 7 (FetchResponds 204 (lit "No Content")
                        (BodyRejects (ThrownError (lit "Unexpected end")))))
         awaiting = Some w'
       /\ loading (session w') = false
       /\ inflight w' = [].
Proof.
  split; [exact awaiting_reachable|]. split; [reflexivity|].
  destruct (proj2 (every_outcome_settles browser 7
                     (FetchResponds 204 (lit "No Content")
                        (BodyRejects (ThrownError (lit "Unexpected end")))))
              awaiting awaiting_reachable eq_refl)
    as (w' & Hs & Hl & Hi & _).
  exists w'. auto.
Defined.

(** X7. A response whose status is not 2xx is an error whatever its body
    is: the body is never read, so two such responses with the same status
    line leave the same state.  The error text is "API Error: " followed
    by the status in decimal digits (and by " - " and the status text in
    the enhanced page), and no other status has that text. *)
Theorem error_status_ignores_body P v selected now
    (status : N) (statusText : jsstring) (json1 json2 : BodyResult)
    (s : State) :
  ok status = false ->
  settle P v selected now (FetchResponds status statusText json1) s
  = settle P v selected now (FetchResponds status statusText json2) s
  /\ error (settle P v selected now (FetchResponds status statusText json1) s)
     = Some (lit "API Error: " ++ decimal status
             ++ match v with
                | Enhanced => lit " - " ++ statusText
                | _ => []
                end)
  /\ Forall (fun c => 48 <= c <= 57) (decimal status)
  /\ forall (status' : N) (statusText' : jsstring) (json' : BodyResult),
       ok status' = false ->
       error (settle P v selected now
                (FetchResponds status' statusText' json') s)
       = error (settle P v selected now
                  (FetchResponds status statusText json1) s) ->
       status' = status.
Proof.
  intros Hok.
  assert (He : forall st stt js, ok st = false ->
            error (settle P v selected now (FetchResponds st stt js) s)
            = Some (apiError v st stt)).
  { intros st stt js H. unfold settle, tryBlock. rewrite H. reflexivity. }
  split; [unfold settle, tryBlock; rewrite Hok; reflexivity|].
  split; [rewrite (He _ _ _ Hok), apiError_text; reflexivity|].
  split; [apply decimal_digits|].
  intros status' statusText' json' Hok' E.
  rewrite (He _ _ _ Hok), (He _ _ _ Hok') in E. injection E as E.
  exact (apiError_status v _ _ _ _ E).
Qed.

Lemma error_status_ignores_body_witness :
  ok 404 = false
  /\ settle browser PostsPage Groq 7
       (FetchResponds 404 (lit "Not Found") (BodyJSON (JObj answer_X)))
       (session awaiting)
     = settle browser PostsPage Groq 7
         (FetchResponds 404 (lit "Not Found") (BodyRejects ThrownOther))
         (session awaiting)
  /\ error (settle browser PostsPage Groq 7
              (FetchResponds 404 (lit "Not Found") (BodyJSON (JObj answer_X)))
              (session awaiting))
     = Some (lit "API Error: 404").
Proof.
  split; [reflexivity|].
  destruct (error_status_ignores_body browser PostsPage Groq 7 404
              (lit "Not Found") (BodyJSON (JObj answer_X))
              (BodyRejects ThrownOther) (session awaiting) eq_refl)
    as (Hsame & Herr & _).
  split; [exact Hsame|]. rewrite Herr. reflexivity.
Defined.

(** ** Quick questions and their timers *)

Lemma step_quick_enhanced P (w : World) (i : nat) (q : jsstring) :
  loading (session w) = false ->
  quickQuestions Enhanced !! i = Some q ->
  step P Enhanced (Quick i) w
  = Some {| session := setQuestion q (session w); inflight := inflight w;
            timers := S (timers w) |}.
Proof.
  intros Hl Hi. unfold step, quick_disabled. rewrite Hl, Hi. reflexivity.
Qed.

Lemma quick_nonblank (v : Version) (i : nat) (q : jsstring) :
  quickQuestions v !! i = Some q -> trim q <> [].
Proof.
  intros Hi. pose proof (quickQuestions_nonblank v) as HF.
  rewrite Forall_lookup in HF. exact (HF i q Hi).
Qed.

Lemma requestSubmit_nonblank P v now (w : World) :
  loading (session w) = false ->
  trim (question (session w)) <> [] ->
  requestSubmit P v now w =
    {| session :=
         {| question := [];
            messages := messages (session w)
                        ++ [userMessage now (question (session w))];
            loading := true; error := None;
            selectedModel := selectedModel (session w) |};
       inflight :=
         inflight w
         ++ [{| request := chatRequest P v (question (session w))
                             (selectedModel (session w));
                closure_selectedModel := selectedModel (session w) |}];
       timers := timers w |}.
Proof.
  intros Hl Hq. unfold requestSubmit. rewrite Hl.
  rewrite (bool_decide_eq_false_2 _ (trim_nonblank_nonempty _ Hq)).
  cbn [negb andb]. unfold onSubmit.
  rewrite (handleSubmit_nonblank P v now _ Hq). reflexivity.
Qed.

Lemma run_cons P v (e : Event) (es : list Event) (w w' : World) :
  step P v e w = Some w' -> run P v (e :: es) w = run P v es w'.
Proof. intros H. cbn [run]. rewrite H. reflexivity. Qed.

Lemma step_timeout P v now (w : World) (n : nat) :
  timers w = S n ->
  step P v (Timeout now) w
  = Some (requestSubmit P v now
            {| session := session w; inflight := inflight w; timers := n |}).
Proof. intros H. unfold step. rewrite H. reflexivity. Qed.

Lemma step_change P v (text : jsstring) (w : World) :
  loading (session w) = false ->
  step P v (Change text) w = Some (with_session (setQuestion text) w).
Proof. intros H. unfold step. by destruct v; cbn; rewrite ?H. Qed.

Lemma step_send P v now (w : World) :
  loading (session w) = false ->
  trim (question (session w)) <> [] ->
  step P v (Send now) w = Some (onSubmit P v now w).
Proof.
  intros Hl Hq. apply blank_test_false in Hq. unfold step.
  rewrite send_disabled_eq, Hl, Hq. reflexivity.
Qed.

(** X8. In the enhanced page, two clicks on quick questions before the
    first timer fires send one question only, the one clicked last: the
    first timer submits what is in the input, and the second finds the
    input empty and submits nothing. *)
Theorem double_click_sends_once P (w : World) (i j : nat)
    (qi qj : jsstring) (t1 t2 : Z) :
  loading (session w) = false ->
  quickQuestions Enhanced !! i = Some qi ->
  quickQuestions Enhanced !! j = Some qj ->
  run P Enhanced [Quick i; Quick j; Timeout t1; Timeout t2] w =
    Some {| session :=
              {| question := [];
                 messages := messages (session w) ++ [userMessage t1 qj];
                 loading := true; error := None;
                 selectedModel := selectedModel (session w) |};
            inflight :=
              inflight w
              ++ [{| request := chatRequest P Enhanced qj
                                  (selectedModel (session w));
                     closure_selectedModel := selectedModel (session w) |}];
            timers := timers w |}.
Proof.
  intros Hl Hi Hj.
  rewrite (run_cons P Enhanced _ _ _ _ (step_quick_enhanced P w i qi Hl Hi)).
  rewrite (run_cons P Enhanced _ _ _ _
             (step_quick_enhanced P
                {| session := setQuestion qi (session w);
                   inflight := inflight w; timers := S (timers w) |}
                j qj Hl Hj)).
  rewrite (run_cons P Enhanced _ _ _ _
             (step_timeout P Enhanced t1
                {| session := setQuestion qj (setQuestion qi (session w));
                   inflight := inflight w; timers := S (S (timers w)) |}
                (S (timers w)) eq_refl)).
  cbn [session inflight timers].
  rewrite requestSubmit_nonblank; [|exact Hl|exact (quick_nonblank _ j qj Hj)].
  cbn [session inflight timers question selectedModel messages setQuestion].
  rewrite (run_cons P Enhanced _ _ _ _
             (step_timeout P Enhanced t2
                {| session :=
                     {| question := [];
                        messages := messages (session w) ++ [userMessage t1 qj];
                        loading := true; error := None;
                        selectedModel := selectedModel (session w) |};
                   inflight :=
                     inflight w
                     ++ [{| request := chatRequest P Enhanced qj
                                         (selectedModel (session w));
                            closure_selectedModel :=
                              selectedModel (session w) |}];
                   timers := S (timers w) |}
                (timers w) eq_refl)).
  cbn [run session inflight timers]. f_equal.
  unfold requestSubmit. cbn [session loading negb andb].
  unfold onSubmit. cbn [session inflight timers].
  rewrite handleSubmit_blank by reflexivity.
  cbn [fst snd option_list question selectedModel messages setQuestion].
  rewrite app_nil_r. reflexivity.
Qed.

Lemma double_click_sends_once_witness :
  loading (session start) = false
  /\ (length <$> (messages <$> (session <$>
        run browser Enhanced [Quick 0; Quick 2; Timeout 5; Timeout 6] start)))
     = Some 1%nat.
Proof.
  split; [reflexivity|].
  rewrite (double_click_sends_once browser start 0 2 _ _ 5 6
             eq_refl eq_refl eq_refl).
  reflexivity.
Defined.

(** X9. In the enhanced page the timer of a quick question submits what
    the input holds when it fires, not the preset: text typed in the
    meantime is sent in its place, just as if it had been typed and sent by
    hand, and if the input was blanked nothing is sent. *)
Theorem timer_submits_the_input P (w : World) (i : nat)
    (q text : jsstring) (now : Z) :
  loading (session w) = false ->
  quickQuestions Enhanced !! i = Some q ->
  (trim text <> [] ->
     run P Enhanced [Quick i; Change text; Timeout now] w
     = run P Enhanced [Change text; Send now] w
     /\ run P Enhanced [Change text; Send now] w
        = Some (onSubmit P Enhanced now (with_session (setQuestion text) w)))
  /\ (trim text = [] ->
        run P Enhanced [Quick i; Change text; Timeout now] w
        = Some (with_session (setQuestion text) w)).
Proof.
  intros Hl Hi.
  assert (Hq : run P Enhanced [Quick i; Change text; Timeout now] w
               = Some (requestSubmit P Enhanced now
                         (with_session (setQuestion text) w))).
  { rewrite (run_cons P Enhanced _ _ _ _
               (step_quick_enhanced P w i q Hl Hi)).
    rewrite (run_cons P Enhanced _ _ _ _
               (step_change P Enhanced text
                  {| session := setQuestion q (session w);
                     inflight := inflight w; timers := S (timers w) |} Hl)).
    rewrite (run_cons P Enhanced _ _ _ _
               (step_timeout P Enhanced now
                  (with_session (setQuestion text)
                     {| session := setQuestion q (session w);
                        inflight := inflight w; timers := S (timers w) |})
                  (timers w) eq_refl)).
    reflexivity. }
  split.
  - intros Ht.
    assert (Hm : run P Enhanced [Change text; Send now] w
                 = Some (onSubmit P Enhanced now
                           (with_session (setQuestion text) w))).
    { rewrite (run_cons P Enhanced _ _ _ _ (step_change P Enhanced text w Hl)).
      rewrite (run_cons P Enhanced _ _ _ _
                 (step_send P Enhanced now
                    (with_session (setQuestion text) w) Hl Ht)).
      reflexivity. }
    split; [|exact Hm]. rewrite Hq, Hm. f_equal.
    unfold requestSubmit.
    change (loading (session (with_session (setQuestion text) w)))
      with (loading (session w)).
    change (question (session (with_session (setQuestion text) w))) with text.
    rewrite Hl, (bool_decide_eq_false_2 _ (trim_nonblank_nonempty _ Ht)).
    reflexivity.
  - intros Ht. rewrite Hq. f_equal. unfold requestSubmit.
    destruct (_ && _); [reflexivity|]. unfold onSubmit.
    rewrite handleSubmit_blank by (apply trim_nil, Ht).
    cbn [fst snd option_list with_session inflight timers session].
    by rewrite app_nil_r.
Qed.

Lemma timer_submits_the_input_witness :
  trim (lit "inflasi") <> []
  /\ run browser Enhanced [Quick 0; Change (lit "inflasi"); Timeout 5] start
     = run browser Enhanced [Change (lit "inflasi"); Send 5] start.
Proof.
  assert (H : trim (lit "inflasi") <> []) by (vm_compute; discriminate).
  split; [exact H|].
  destruct (timer_submits_the_input browser start 0 _ (lit "inflasi") 5
              eq_refl eq_refl) as [Hn _].
  exact (proj1 (Hn H)).
Defined.

(** ** Badge and panel of a reply *)

Lemma strict_equal_string (a : value) (s : jsstring) :
  strict_equal a (Some (JStr s)) = true <-> a = Some (JStr s).
Proof.
  destruct a as [[]|]; simpl; try (split; discriminate).
  rewrite bool_decide_eq_true. split; congruence.
Qed.

Lemma strict_equal_string_l (s : jsstring) (b : value) :
  strict_equal (Some (JStr s)) b = true <-> b = Some (JStr s).
Proof.
  destruct b as [[]|]; simpl; try (split; discriminate).
  rewrite bool_decide_eq_true. split; congruence.
Qed.

(** X10. The badge of a reply built from a response.  Without a truthy
    [metadata.model] the badge names the model that was selected.  With
    one, the badge says Groq only when it is the string "groq"; any other
    name, and any value that is not a string, gets the Gemini badge,
    whichever model was selected. *)
Theorem badge_of_reply P v selected now
    (status : N) (statusText : jsstring) (fields : list (jsstring * JSON)) :
  ok status = true ->
  exists reply : ChatMessage,
    tryBlock P v selected now
      (FetchResponds status statusText (BodyJSON (JObj fields)))
    = Normal reply
    /\ (truthy (get_opt (assoc (lit "metadata") fields) (lit "model")) = false ->
        model_badge reply = Some (badge_of selected))
    /\ (get_opt (assoc (lit "metadata") fields) (lit "model")
        = Some (JStr (lit "groq")) ->
        model_badge reply = Some GroqBadge)
    /\ (truthy (get_opt (assoc (lit "metadata") fields) (lit "model")) = true ->
        get_opt (assoc (lit "metadata") fields) (lit "model")
        <> Some (JStr (lit "groq")) ->
        model_badge reply = Some GeminiBadge).
Proof.
  intros Hok. eexists. split; [exact (tryBlock_object P v _ _ _ _ _ Hok)|].
  unfold model_badge, shows_model_badge, JS.or. cbn [model].
  set (mm := get_opt (assoc (lit "metadata") fields) (lit "model")).
  split; [|split].
  - intros ->. by destruct selected.
  - intros ->. reflexivity.
  - intros Ht Hne. rewrite Ht, Ht.
    destruct (strict_equal mm (Some (JStr (lit "groq")))) eqn:E;
      [|reflexivity].
    apply strict_equal_string in E. contradiction.
Qed.

Lemma badge_of_reply_witness :
  ok 200 = true
  /\ exists reply : ChatMessage,
       tryBlock browser Enhanced Groq 7
         (FetchResponds 200 (lit "OK") (BodyJSON (JObj answer_llama)))
       = Normal reply
       /\ model_badge reply = Some GeminiBadge.
Proof.
  split; [reflexivity|].
  destruct (badge_of_reply browser Enhanced Groq 7 200 (lit "OK")
              answer_llama eq_refl) as (reply & Ht & _ & _ & Hg).
  exists reply. split; [exact Ht|].
  apply Hg; [reflexivity|]. vm_compute. discriminate.
Defined.

(** X11. The panel of the query expansion.  In the Posts page a reply
    whose metadata has the string [expanded_query] shows the panel exactly
    when that string is not empty and is not the [original_query].  The
    other two pages keep no metadata in their replies, and an error reply
    has none in any page. *)
Theorem query_panel_of_reply P selected now
    (status : N) (statusText : jsstring)
    (fields mfields : list (jsstring * JSON)) (expanded : jsstring) :
  ok status = true ->
  assoc (lit "metadata") fields = Some (JObj mfields) ->
  assoc (lit "expanded_query") mfields = Some (JStr expanded) ->
  (exists reply : ChatMessage,
     tryBlock P PostsPage selected now
       (FetchResponds status statusText (BodyJSON (JObj fields)))
     = Normal reply
     /\ (shows_query_panel reply = true
         <-> expanded <> []
             /\ assoc (lit "original_query") mfields
                <> Some (JStr expanded)))
  /\ (forall v, v <> PostsPage ->
        exists reply : ChatMessage,
          tryBlock P v selected now
            (FetchResponds status statusText (BodyJSON (JObj fields)))
          = Normal reply
          /\ metadata reply = undefined
          /\ shows_query_panel reply = false)
  /\ (forall v t text,
        metadata (errorChatMessage v t text) = undefined
        /\ shows_query_panel (errorChatMessage v t text) = false).
Proof.
  intros Hok Hm He. split; [|split].
  - eexists. split; [exact (tryBlock_object P _ _ _ _ _ _ Hok)|].
    unfold shows_query_panel. cbn [metadata]. rewrite Hm. cbn [get_opt].
    rewrite He. rewrite andb_true_iff, negb_true_iff.
    rewrite <- not_true_iff_false, strict_equal_string_l.
    simpl. rewrite negb_true_iff, bool_decide_eq_false. reflexivity.
  - intros v Hv. eexists. split; [exact (tryBlock_object P _ _ _ _ _ _ Hok)|].
    destruct v; [contradiction|done|done].
  - done.
Qed.

Lemma query_panel_of_reply_witness :
  ok 200 = true
  /\ exists reply : ChatMessage,
       tryBlock browser PostsPage Groq 7
         (FetchResponds 200 (lit "OK") (BodyJSON (JObj answer_expanded)))
       = Normal reply
       /\ shows_query_panel reply = true.
Proof.
  split; [reflexivity|].
  destruct (query_panel_of_reply browser Groq 7 200 (lit "OK")
              answer_expanded
              [(lit "original_query", JStr (lit "inflasi"));
               (lit "expanded_query", JStr (lit "inflasi 2024 2025"))]
              (lit "inflasi 2024 2025") eq_refl eq_refl eq_refl)
    as ((reply & Ht & Hp) & _).
  exists reply. split; [exact Ht|].
  apply Hp. split; vm_compute; discriminate.
Defined.

(** ** What never changes the selected model *)

Lemma handleSubmit_selectedModel P v now (s : State) :
  selectedModel (handleSubmit P v now s).1 = selectedModel s.
Proof. unfold handleSubmit. by destruct (negb _). Qed.

(** X12. Only the two model buttons change the selected model.  Sending a
    question, the settling of a request (whatever model the response names
    in its metadata), a quick question, typing and dismissing an error all
    leave it as it is; and a model button sets it only while the page is
    idle. *)
Theorem selected_model_frame P v (e : Event) (w w' : World) :
  step P v e w = Some w' ->
  match e with
  | SelectModel m =>
      loading (session w) = false /\ selectedModel (session w') = m
  | _ => selectedModel (session w') = selectedModel (session w)
  end.
Proof.
  intros Hs. destruct e; unfold step in Hs.
  - destruct (input_disabled v _); [discriminate|]. by injection Hs as <-.
  - destruct (send_disabled v _); [discriminate|]. injection Hs as <-.
    apply handleSubmit_selectedModel.
  - destruct (timers w); [discriminate|]. injection Hs as <-.
    unfold requestSubmit. destruct (_ && _); [reflexivity|].
    apply handleSubmit_selectedModel.
  - destruct (loading (session w)); [discriminate|]. by injection Hs as <-.
  - destruct (quick_disabled v _); [discriminate|].
    destruct (quickQuestions v !! i); [|discriminate].
    simpl in Hs. injection Hs as <-. by destruct v.
  - destruct (dismiss_offered v _); [|discriminate]. by injection Hs as <-.
  - destruct (inflight w !! i) as [p|]; [|discriminate].
    simpl in Hs. injection Hs as <-. cbn [session].
    destruct (settle_cases P v (closure_selectedModel p) now o (session w))
      as (reply & _ & _ & _ & _ & _ & Hsel & _).
    exact Hsel.
Qed.

Lemma selected_model_frame_witness :
  exists w' : World,
    step browser FixedSources
      (Settle 0 7 (FetchResponds 200 (lit "OK") (BodyJSON (JObj answer_X))))
      awaiting = Some w'
    /\ selectedModel (session w') = Groq.
Proof.
  eexists. split; [reflexivity|].
  exact (selected_model_frame browser FixedSources
           (Settle 0 7 (FetchResponds 200 (lit "OK")
                          (BodyJSON (JObj answer_X))))
           awaiting _ eq_refl).
Defined.

(** ** Time stamps *)

Lemma in_order_snoc (ms : list ChatMessage) (m : ChatMessage) (t : Z) :
  in_order ms ->
  Forall (fun a => (timestamp a <= t)%Z) ms ->
  (t <= timestamp m)%Z ->
  in_order (ms ++ [m]).
Proof.
  intros Ho Hb Hm i j a b Hij Hi Hj.
  destruct (decide (j < length ms)%nat) as [Hlt|Hge].
  - rewrite lookup_app_l in Hi by lia. rewrite lookup_app_l in Hj by lia.
    exact (Ho i j a b Hij Hi Hj).
  - rewrite lookup_app_r in Hj by lia.
    destruct (j - length ms)%nat as [|k]; [|destruct k; discriminate].
    injection Hj as <-.
    destruct (decide (i < length ms)%nat) as [Hi'|Hi'].
    + rewrite lookup_app_l in Hi by lia.
      rewrite Forall_lookup in Hb. pose proof (Hb i a Hi). lia.
    + rewrite lookup_app_r in Hi by lia.
      destruct (i - length ms)%nat as [|k]; [|destruct k; discriminate].
      injection Hi as <-. lia.
Qed.

(** An event leaves the transcript as it is, or appends one message that
    bears the clock of the event. *)
Lemma step_messages P v (e : Event) (w w' : World) :
  step P v e w = Some w' ->
  messages (session w') = messages (session w)
  \/ exists m, clock e = Some (timestamp m)
               /\ messages (session w') = messages (session w) ++ [m].
Proof.
  intros Hs.
  assert (Hh : forall now w0,
             messages (session (onSubmit P v now w0)) = messages (session w0)
             \/ exists m, Some now = Some (timestamp m)
                          /\ messages (session (onSubmit P v now w0))
                             = messages (session w0) ++ [m]).
  { intros now w0. unfold onSubmit, handleSubmit. cbn [session].
    destruct (negb _); simpl; [by left|]. right.
    by exists (userMessage now (question (session w0))). }
  destruct e; unfold step in Hs.
  - destruct (input_disabled v _); [discriminate|].
    injection Hs as <-. by left.
  - destruct (send_disabled v _); [discriminate|]. injection Hs as <-.
    apply Hh.
  - destruct (timers w); [discriminate|]. injection Hs as <-.
    unfold requestSubmit. destruct (_ && _); [by left|].
    apply (Hh now {| session := session w; inflight := inflight w;
                     timers := n |}).
  - destruct (loading (session w)); [discriminate|].
    injection Hs as <-. by left.
  - destruct (quick_disabled v _); [discriminate|].
    destruct (quickQuestions v !! i); [|discriminate].
    simpl in Hs. injection Hs as <-. left. by destruct v.
  - destruct (dismiss_offered v _); [|discriminate].
    injection Hs as <-. by left.
  - destruct (inflight w !! i) as [p|]; [|discriminate].
    simpl in Hs. injection Hs as <-. cbn [session]. right.
    destruct (settle_cases P v (closure_selectedModel p) now o (session w))
      as (reply & _ & Ht & Hm & _).
    exists reply. split; [by rewrite Ht|exact Hm].
Qed.

Lemma run_in_order P v (es : list Event) (t : Z) (w w' : World) :
  run P v es w = Some w' ->
  ticking t es ->
  in_order (messages (session w)) ->
  Forall (fun a => (timestamp a <= t)%Z) (messages (session w)) ->
  in_order (messages (session w')).
Proof.
  revert t w. induction es as [|e es IH]; intros t w Hr Ht Ho Hb.
  - injection Hr as <-. exact Ho.
  - cbn [run] in Hr. destruct (step P v e w) as [w1|] eqn:Hs; [|discriminate].
    cbn [mbind option_bind] in Hr. cbn [ticking] in Ht.
    destruct (step_messages P v e w w1 Hs) as [Hm|(m & Hc & Hm)].
    + destruct (clock e) as [t'|].
      * destruct Ht as [Hle Ht]. apply (IH t' w1 Hr Ht); rewrite Hm; [done|].
        eapply Forall_impl; [exact Hb|]. intros a Ha. cbv beta in *. lia.
      * apply (IH t w1 Hr Ht); rewrite Hm; done.
    + rewrite Hc in Ht. destruct Ht as [Hle Ht].
      apply (IH (timestamp m) w1 Hr Ht); rewrite Hm.
      * by apply (in_order_snoc _ _ t).
      * apply Forall_app. split.
        -- eapply Forall_impl; [exact Hb|]. intros a Ha. cbv beta in *. lia.
        -- apply Forall_singleton. lia.
Qed.

(** X13. If the clock never goes back from one event to the next, the
    time stamps of the transcript never go back from one message to the
    next, whatever the events are: each message bears the clock of the
    event that appended it. *)
Theorem timestamps_in_order P v (es : list Event) (t : Z) (w : World) :
  run P v es start = Some w ->
  ticking t es ->
  in_order (messages (session w)).
Proof.
  intros Hr Ht. apply (run_in_order P v es t start w Hr Ht).
  - intros i j a b _ Hi. discriminate.
  - apply Forall_nil_2.
Qed.

Lemma timestamps_in_order_witness :
  ticking 0 [Change (lit "x"); Send 5;
             Settle 0 7 (FetchRejects ThrownOther); Quick 0; Timeout 9]
  /\ exists w : World,
       run browser Enhanced
         [Change (lit "x"); Send 5;
          Settle 0 7 (FetchRejects ThrownOther); Quick 0; Timeout 9] start
       = Some w
       /\ (timestamp <$> messages (session w)) = [5; 7; 9]%Z
       /\ in_order (messages (session w)).
Proof.
  assert (Ht : ticking 0 [Change (lit "x"); Send 5;
                          Settle 0 7 (FetchRejects ThrownOther); Quick 0;
                          Timeout 9])
    by (cbn; lia).
  split; [exact Ht|].
  eexists. split; [reflexivity|]. split; [reflexivity|].
  apply (timestamps_in_order browser Enhanced
           [Change (lit "x"); Send 5;
            Settle 0 7 (FetchRejects ThrownOther); Quick 0; Timeout 9] 0).
  - reflexivity.
  - exact Ht.
Defined.

(** ** The welcome screen *)

(** X14. While the welcome screen shows, no request is on its way and no
    error is set; and once it is gone it never comes back, whatever
    happens to the page. *)
Theorem welcome_screen P v (w : World) :
  reachable P v w ->
  (shows_welcome (session w) = true ->
     loading (session w) = false /\ error (session w) = None)
  /\ (forall es w', run P v es w = Some w' ->
        shows_welcome (session w) = false ->
        shows_welcome (session w') = false).
Proof.
  intros Hr. split.
  - unfold shows_welcome. intros Hw.
    destruct (messages (session w)) as [|m ms] eqn:Hm; [|discriminate].
    exact (reachable_fresh P v w Hr Hm).
  - clear Hr. intros es. revert w.
    induction es as [|e es IH]; intros w w' Hrun Hw.
    + by injection Hrun as <-.
    + cbn [run] in Hrun.
      destruct (step P v e w) as [w1|] eqn:Hs; [|discriminate].
      apply (IH w1 w' Hrun). unfold shows_welcome in *.
      destruct (step_prefix P v e w w1 Hs) as [k ->].
      by destruct (messages (session w)).
Qed.

Lemma welcome_screen_witness :
  reachable browser Enhanced start
  /\ shows_welcome (session start) = true
  /\ loading (session start) = false /\ error (session start) = None.
Proof.
  split; [apply reachable_start|]. split; [reflexivity|].
  apply (welcome_screen browser Enhanced start (reachable_start _ _)).
  reflexivity.
Defined.
